(** * chord-progression-mcp: the chord progression engine

    A shallow embedding of [createChordProgression.js] and the properties of
    its key parser, scale engine, chord builder, progression selector and
    entry point, and of the tool that [index.js] wraps around the entry point.

    Conventions of the embedding.
    - JavaScript numbers are doubles; the numbers of the engine are integers,
      held here in [Z].  Between [-2^53] and [2^53] the arithmetic of doubles
      on integers is exact, and from octave 4, the only one the entry point
      asks for, nothing leaves that range.  The subtraction [degree - 1] is
      the one operation applied to a caller's number as it comes, and is
      rounded as a double rounds it ([Double.round]).  The octave arithmetic
      is written exactly; it is the source's for the octaves of [safeOctave].
      [%] is the truncating remainder [Z.rem], [Math.floor (x / 12)] is
      [x / 12].
    - Key strings are ASCII text.  Case mapping acts on the letters A-Z and
      a-z, white space is the ASCII white space.
    - The object literals used as tables are finite maps ([gmap]).  A property
      read on an object literal also sees what it inherits from
      [Object.prototype]; [get] makes the three outcomes explicit.
    - [throw new Error (...)] is the [Err] case of [result], one constructor of
      [error] per message of the source. *)

From Stdlib Require Import ZArith Ascii String DecimalString.
From stdpp Require Import base option list gmap strings fin_maps.

Local Open Scope string_scope.
Local Open Scope Z_scope.

(** ** JavaScript strings *)

Module JS.

Definition isUpper (c : ascii) : bool :=
  let n := nat_of_ascii c in (65 <=? n)%nat && (n <=? 90)%nat.

Definition isLower (c : ascii) : bool :=
  let n := nat_of_ascii c in (97 <=? n)%nat && (n <=? 122)%nat.

Definition lowerChar (c : ascii) : ascii :=
  if isUpper c then ascii_of_nat (nat_of_ascii c + 32) else c.

Definition upperChar (c : ascii) : ascii :=
  if isLower c then ascii_of_nat (nat_of_ascii c - 32) else c.

(** [s.toLowerCase()] *)
Fixpoint toLowerCase (s : string) : string :=
  match s with
  | EmptyString => EmptyString
  | String c t => String (lowerChar c) (toLowerCase t)
  end.

(** [s.toUpperCase()] *)
Fixpoint toUpperCase (s : string) : string :=
  match s with
  | EmptyString => EmptyString
  | String c t => String (upperChar c) (toUpperCase t)
  end.

(** space, tab, line feed, vertical tab, form feed, carriage return *)
Definition isSpace (c : ascii) : bool :=
  let n := nat_of_ascii c in (n =? 32)%nat || ((9 <=? n)%nat && (n <=? 13)%nat).

Fixpoint trimStart (s : string) : string :=
  match s with
  | EmptyString => EmptyString
  | String c t => if isSpace c then trimStart t else s
  end.

(** [trimEnd] drops a character when it is white space and nothing but white
    space follows it. *)
Fixpoint trimEnd (s : string) : string :=
  match s with
  | EmptyString => EmptyString
  | String c t =>
      match trimEnd t with
      | EmptyString => if isSpace c then EmptyString else String c EmptyString
      | t' => String c t'
      end
  end.

(** [s.trim()] *)
Definition trim (s : string) : string := trimEnd (trimStart s).

(** [s.startsWith(p)] *)
Fixpoint startsWith (p s : string) : bool :=
  match p, s with
  | EmptyString, _ => true
  | String a p', String b s' => Ascii.eqb a b && startsWith p' s'
  | String _ _, EmptyString => false
  end.

(** [s.includes(p)] *)
Fixpoint includes (p s : string) : bool :=
  startsWith p s ||
  match s with
  | EmptyString => false
  | String _ t => includes p t
  end.

(** [s.charAt(0)]: the first character as a string, empty on the empty
    string. *)
Definition charAt0 (s : string) : string :=
  match s with
  | EmptyString => EmptyString
  | String c _ => String c EmptyString
  end.

(** [s.slice(1)] *)
Definition slice1 (s : string) : string :=
  match s with
  | EmptyString => EmptyString
  | String _ t => t
  end.

(** Decimal rendering of an integer, as string concatenation does it. *)
Definition ofInt (z : Z) : string := NilZero.string_of_int (Z.to_int z).

End JS.

(** ** The two regular expressions of the key parser *)

Module Regex.

(** Does the literal [p] match at the start of [s] under the [i] flag? *)
Definition startsWithCI (p s : string) : bool :=
  JS.startsWith (JS.toLowerCase p) (JS.toLowerCase s).

(** An alternation of literals [p1|p2|...] tried at the start of [s]: the
    first alternative that matches wins; the result is the length of the
    match. *)
Fixpoint matchAlt (alts : list string) (s : string) : option nat :=
  match alts with
  | [] => None
  | p :: rest =>
      if startsWithCI p s then Some (String.length p) else matchAlt rest s
  end.

(** [s.replace(/p1|p2|.../gi, '')]: scan from the left; where an alternative
    matches, drop the match and go on behind it, otherwise keep the character.
    [skip] counts the characters of the current match still to drop. *)
Fixpoint removeAllFrom (alts : list string) (skip : nat) (s : string) : string :=
  match s with
  | EmptyString => EmptyString
  | String c t =>
      match skip with
      | S k => removeAllFrom alts k t
      | O =>
          match matchAlt alts s with
          | Some (S k) => removeAllFrom alts k t
          | _ => String c (removeAllFrom alts O t)
          end
      end
  end.

Definition removeAll (alts : list string) (s : string) : string :=
  removeAllFrom alts O s.

(** The alternatives of [/minor|min|major|maj|m|M/gi], in order. *)
Definition modeWords : list string :=
  ["minor"; "min"; "major"; "maj"; "m"; "M"].

Definition isNoteLetter (c : ascii) : bool :=
  let n := nat_of_ascii (JS.upperChar c) in (65 <=? n)%nat && (n <=? 71)%nat.

Definition isAccidental (c : ascii) : bool :=
  Ascii.eqb c "#" || Ascii.eqb (JS.lowerChar c) "b".

Definition isM (c : ascii) : bool := Ascii.eqb (JS.lowerChar c) "m".

(** [s.match(/^([A-G][#b]?)(m|M)?$/i)]: [None] is [null]; otherwise the two
    groups, the second one [None] when it took no part in the match. *)
Definition noteMatch (s : string) : option (string * option string) :=
  match s with
  | EmptyString => None
  | String c t =>
      if isNoteLetter c then
        let '(g1, rest) :=
          match t with
          | String d t' =>
              if isAccidental d then (String c (String d EmptyString), t')
              else (String c EmptyString, t)
          | EmptyString => (String c EmptyString, EmptyString)
          end in
        match rest with
        | EmptyString => Some (g1, None)
        | String e EmptyString =>
            if isM e then Some (g1, Some (String e EmptyString)) else None
        | _ => None
        end
      else None
  end.

End Regex.

(** ** Property reads on object literals *)

(** What [o[k]] finds: a property of the literal itself, one inherited from
    [Object.prototype] (a function or an object, never a number or a string),
    or nothing ([undefined]). *)
Inductive property (A : Type) : Type :=
  | Own (a : A)
  | Inherited
  | Undefined.
Arguments Own {A} a.
Arguments Inherited {A}.
Arguments Undefined {A}.

Definition Object_prototype : list string :=
  ["constructor"; "__defineGetter__"; "__defineSetter__"; "hasOwnProperty";
   "__lookupGetter__"; "__lookupSetter__"; "isPrototypeOf";
   "propertyIsEnumerable"; "toString"; "valueOf"; "__proto__";
   "toLocaleString"].

Definition get {A : Type} (o : gmap string A) (k : string) : property A :=
  match o !! k with
  | Some a => Own a
  | None => if bool_decide (k ∈ Object_prototype) then Inherited else Undefined
  end.

(** ** The constant tables *)

(** Maps note names to MIDI note numbers (C4 = 60). *)
Definition NOTE_TO_MIDI_entries : list (string * Z) :=
  [("C", 60); ("C#", 61); ("Db", 61); ("D", 62); ("D#", 63); ("Eb", 63);
   ("E", 64); ("F", 65); ("F#", 66); ("Gb", 66); ("G", 67); ("G#", 68);
   ("Ab", 68); ("A", 69); ("A#", 70); ("Bb", 70); ("B", 71)].

Definition NOTE_TO_MIDI : gmap string Z := list_to_map NOTE_TO_MIDI_entries.

Definition MAJOR_TRIAD : list Z := [0; 4; 7].
Definition MINOR_TRIAD : list Z := [0; 3; 7].

Definition MAJOR_SCALE : list Z := [0; 2; 4; 5; 7; 9; 11].
Definition MINOR_SCALE : list Z := [0; 2; 3; 5; 7; 8; 10].

(** [midiToNote], declared twice in the source with the same contents. *)
Definition midiToNote : gmap Z string :=
  list_to_map
    [(0, "C"); (1, "C#"); (2, "D"); (3, "D#"); (4, "E"); (5, "F");
     (6, "F#"); (7, "G"); (8, "G#"); (9, "A"); (10, "A#"); (11, "B")].

Definition keyPrefs_entries : list (string * list string) :=
  [("C",  ["C"; "D"; "E"; "F"; "G"; "A"; "B"]);
   ("Db", ["Db"; "Eb"; "F"; "Gb"; "Ab"; "Bb"; "C"]);
   ("D",  ["D"; "E"; "F#"; "G"; "A"; "B"; "C#"]);
   ("Eb", ["Eb"; "F"; "G"; "Ab"; "Bb"; "C"; "D"]);
   ("E",  ["E"; "F#"; "G#"; "A"; "B"; "C#"; "D#"]);
   ("F",  ["F"; "G"; "A"; "Bb"; "C"; "D"; "E"]);
   ("F#", ["F#"; "G#"; "A#"; "B"; "C#"; "D#"; "E#"]);
   ("Gb", ["Gb"; "Ab"; "Bb"; "Cb"; "Db"; "Eb"; "F"]);
   ("G",  ["G"; "A"; "B"; "C"; "D"; "E"; "F#"]);
   ("Ab", ["Ab"; "Bb"; "C"; "Db"; "Eb"; "F"; "G"]);
   ("A",  ["A"; "B"; "C#"; "D"; "E"; "F#"; "G#"]);
   ("Bb", ["Bb"; "C"; "D"; "Eb"; "F"; "G"; "A"]);
   ("B",  ["B"; "C#"; "D#"; "E"; "F#"; "G#"; "A#"])].

Definition keyPrefs : gmap string (list string) := list_to_map keyPrefs_entries.

Definition patterns : gmap Z (list Z) :=
  list_to_map
    [(2, [1; 5]);
     (3, [1; 4; 5]);
     (4, [1; 4; 5; 1]);
     (5, [1; 6; 4; 5; 1]);
     (6, [1; 6; 4; 5; 1; 4])].

(** The tables are read by evaluation, never unfolded while simplifying. *)
Arguments get : simpl never.
Arguments NOTE_TO_MIDI : simpl never.
Arguments midiToNote : simpl never.
Arguments keyPrefs : simpl never.
Arguments patterns : simpl never.

(** ** Errors *)

Inductive error : Type :=
  | InvalidKeyFormat (key : string)   (* "Invalid key format: ..." *)
  | InvalidRootNote (root : string)   (* "Invalid root note: ..." *)
  | InvalidNoteName (name : string)   (* "Invalid note name: ..." *)
  | InvalidChordCount (n : Z)         (* "numChords must be between 2 and 6, got ..." *)
  | TypeError.                        (* a method call on [undefined] *)

Inductive result (A : Type) : Type :=
  | Ok (a : A)
  | Err (e : error).
Arguments Ok {A} a.
Arguments Err {A} e.

(** Sequencing: a throw in [r] skips the rest.  With this instance the
    [x ← r; k] notation reads as a statement followed by the rest of the body. *)
#[global] Instance result_bind : MBind result :=
  fun A B (k : A -> result B) (r : result A) =>
    match r with
    | Ok a => k a
    | Err e => Err e
    end.

(** [xs.forEach(x => out.push(f x))] where [f] may throw: the first throw
    abandons the loop. *)
Fixpoint forEach {A B : Type} (f : A -> result B) (xs : list A) : result (list B) :=
  match xs with
  | [] => Ok []
  | x :: rest => y ← f x; ys ← forEach f rest; Ok (y :: ys)
  end.

(** ** parseKey *)

Record KeyInfo : Type := { root : string; isMinor : bool }.

Definition minorIndicators : list string := ["minor"; "min"; "m"].

Definition capitalize (s : string) : string :=
  JS.toUpperCase (JS.charAt0 s) +:+ JS.slice1 s.

(** [None] is the [null] of the source. *)
Definition parseKey (keyString : string) : option KeyInfo :=
  let normalized := JS.trim keyString in
  let isMinor :=
    existsb (fun indicator =>
               JS.includes (JS.toLowerCase indicator) (JS.toLowerCase normalized))
            minorIndicators in
  let root := JS.trim (Regex.removeAll Regex.modeWords normalized) in
  if String.eqb root EmptyString then
    match Regex.noteMatch normalized with
    | Some (g1, g2) =>
        let root := capitalize g1 in
        match g2 with
        | Some m =>
            if String.eqb (JS.toLowerCase m) "m"
            then Some {| root := root; isMinor := true |}
            else Some {| root := root; isMinor := false |}
        | None => Some {| root := root; isMinor := false |}
        end
    | None => None
    end
  else Some {| root := capitalize root; isMinor := isMinor |}.

(** ** noteToMidi *)

(** [arr[i]] for an integer [i]: [undefined] outside the array. *)
Definition index {A : Type} (arr : list A) (i : Z) : option A :=
  if i <? 0 then None else arr !! Z.to_nat i.

(** The property key a note name is read under: [undefined] becomes the
    string of that name. *)
Definition propertyKey (noteName : option string) : string :=
  default "undefined" noteName.

(** Converts a note name and octave to a MIDI note number.  The name is
    [None] when the caller passes [undefined].  The number is [None] when the
    name is one [NOTE_TO_MIDI] inherits: a function or object plus a number is
    a string that is no numeral.  The arithmetic is exact; it is that of the
    source as long as the octave is within [safeOctave]. *)
Definition noteToMidi (noteName : option string) (octave : Z) : result (option Z) :=
  match get NOTE_TO_MIDI (propertyKey noteName) with
  | Undefined => Err (InvalidNoteName (propertyKey noteName))
  | Own baseNote => Ok (Some (baseNote + (octave - 4) * 12))
  | Inherited => Ok None
  end.

(** ** Doubles that hold integers *)

Module Double.

(** [Number.MAX_SAFE_INTEGER], 2^53 - 1. *)
Definition MAX_SAFE_INTEGER : Z := 9007199254740991.

(** The double nearest to an integer, ties to the even significand: what the
    result of an addition or subtraction of doubles is when the exact result
    is [z].  Up to 2^53 in size every integer is a double; beyond, 53
    significant bits are kept.  (Finite doubles only: no operation modelled
    with it can overflow.) *)
Definition round (z : Z) : Z :=
  let a := Z.abs z in
  if a <=? MAX_SAFE_INTEGER + 1 then z
  else
    let e := Z.log2 a - 52 in
    let q := a / 2 ^ e in
    let r := a mod 2 ^ e in
    let half := 2 ^ (e - 1) in
    let up := (half <? r) || ((r =? half) && Z.odd q) in
    Z.sgn z * ((if up then q + 1 else q) * 2 ^ e).

End Double.

(** ** getScaleDegreeNote *)

(** [((degree - 1) % 7 + 7) % 7], for a [degree] that is a double holding an
    integer.  The remainders are exact and [+ 7] adds to a number below 7;
    only [degree - 1] can round. *)
Definition degreeIndex (degree : Z) : Z :=
  Z.rem (Z.rem (Double.round (degree - 1)) 7 + 7) 7.

(** [a || b] on note names: [a] unless it is [undefined] or empty. *)
Definition orElse (a b : option string) : option string :=
  match a with
  | Some s => if String.eqb s EmptyString then b else a
  | None => b
  end.

(** Gets the note name for a scale degree in a given key; [Ok None] is a
    return of [undefined]. *)
Definition getScaleDegreeNote (root : string) (degree : Z) (isMinor : bool)
  : result (option string) :=
  let scale := if isMinor then MINOR_SCALE else MAJOR_SCALE in
  match get NOTE_TO_MIDI root with
  | Undefined => Err (InvalidRootNote root)
  | rootMidi =>
      let degreeIndex := degreeIndex degree in
      let noteName :=
        match rootMidi with
        | Own rootMidi =>
            chromaticOffset ← index scale degreeIndex;
            let midiNote := rootMidi + chromaticOffset in
            let noteInOctave := Z.rem midiNote 12 in
            midiToNote !! noteInOctave
        | _ => None
        end in
      let preferred :=
        match get keyPrefs root with
        | Own row => index row degreeIndex
        | _ => None
        end in
      Ok (orElse preferred noteName)
  end.

(** ** getChordNotes *)

(** An element of the array [getChordNotes] returns: a note with its octave
    such as ["C4"], or [NaN] where [undefined + octaveNum] was pushed. *)
Inductive note : Type :=
  | Note (name : string)
  | NaN.

(** The body of the [forEach] callback, from [noteMidi] on.  Exact
    arithmetic and decimal digits: the source's for a [noteMidi] that is a
    safe integer. *)
Definition noteOfMidi (noteMidi : Z) : note :=
  let octaveNum := noteMidi / 12 - 1 in
  let noteInOctave := Z.rem noteMidi 12 in
  match midiToNote !! noteInOctave with
  | Some noteName => Note (noteName +:+ JS.ofInt octaveNum)
  | None => NaN
  end.

(** [[...].includes(degree)] *)
Definition includes (l : list Z) (degree : Z) : bool := existsb (Z.eqb degree) l.

(** Gets chord notes for a scale degree (I, IV, V, etc.) *)
Definition getChordNotes (root : string) (degree : Z) (isMinor : bool) (octave : Z)
  : result (list note) :=
  chordRoot ← getScaleDegreeNote root degree isMinor;
  let isChordMinor :=
    if isMinor then includes [1; 4; 5] degree else includes [2; 3; 6] degree in
  let intervals := if isChordMinor then MINOR_TRIAD else MAJOR_TRIAD in
  rootMidi ← noteToMidi chordRoot octave;
  Ok (map (fun interval =>
             match rootMidi with
             | Some rootMidi => noteOfMidi (rootMidi + interval)
             | None => NaN
             end) intervals).

(** ** getProgressionDegrees *)

(** Returns the scale degrees for a progression with the specified number of
    chords; [Ok None] is a return of [undefined]. *)
Definition getProgressionDegrees (numChords : Z) : result (option (list Z)) :=
  if (numChords <? 2) || (numChords >? 6)
  then Err (InvalidChordCount numChords)
  else Ok (patterns !! numChords).

(** ** createChordProgression *)

(** What the entry point hands to the MIDI writer for one chord. *)
Record NoteEvent : Type :=
  { pitch : list note; duration : string; velocity : Z }.

(** [!NOTE_TO_MIDI[root]] is false for a non-zero number and for anything
    inherited. *)
Definition truthy (p : property Z) : bool :=
  match p with
  | Own n => negb (n =? 0)
  | Inherited => true
  | Undefined => false
  end.

(** The entry point, up to the MIDI writer: the result is the list of note
    events added to the track, in order.  Serialising the track is the
    library's work.  [numChords] is always given here; a caller that leaves it
    out gets 4. *)
Definition createChordProgression (key : string) (numChords : Z)
  : result (list NoteEvent) :=
  match parseKey key with
  | None => Err (InvalidKeyFormat key)
  | Some keyInfo =>
      let root := root keyInfo in
      let isMinor := isMinor keyInfo in
      if negb (truthy (get NOTE_TO_MIDI root)) then Err (InvalidRootNote root)
      else if (numChords <? 2) || (numChords >? 6)
      then Err (InvalidChordCount numChords)
      else
        progression ← getProgressionDegrees numChords;
        match progression with
        | None => Err TypeError
        | Some progression =>
            forEach (fun degree =>
                       chordNotes ← getChordNotes root degree isMinor 4;
                       Ok {| pitch := chordNotes; duration := "1"; velocity := 100 |})
                    progression
        end
  end.

(** ** index.js: the tool around the entry point *)

Module Index.

(** The table of [getProgressionDescription], called [patterns] there. *)
Definition patterns : gmap Z string :=
  list_to_map
    [(2, "I-V");
     (3, "I-IV-V");
     (4, "I-IV-V-I");
     (5, "I-vi-IV-V-I");
     (6, "I-vi-IV-V-I-IV")].

(** Returns a human-readable description of the progression pattern:
    [patterns[numChords] || `I-IV-V-I (${numChords} chords)`]. *)
Definition getProgressionDescription (numChords : Z) : string :=
  let fallback := "I-IV-V-I (" +:+ JS.ofInt numChords +:+ " chords)" in
  match patterns !! numChords with
  | Some description =>
      if String.eqb description EmptyString then fallback else description
  | None => fallback
  end.

(** [s.replace(/\s+/g, '_')]: every maximal run of white space becomes one
    underscore.  [inRun] tells that the character before was white space. *)
Fixpoint underscoreSpaces (inRun : bool) (s : string) : string :=
  match s with
  | EmptyString => EmptyString
  | String c t =>
      if JS.isSpace c
      then if inRun then underscoreSpaces true t
           else String "_" (underscoreSpaces true t)
      else String c (underscoreSpaces false t)
  end.

Definition isDigit (c : ascii) : bool :=
  let n := nat_of_ascii c in (48 <=? n)%nat && (n <=? 57)%nat.

(** The class [a-zA-Z0-9_#]. *)
Definition isNameChar (c : ascii) : bool :=
  JS.isLower c || JS.isUpper c || isDigit c || Ascii.eqb c "_" || Ascii.eqb c "#".

(** [s.replace(/[^a-zA-Z0-9_#]/g, '')] *)
Fixpoint keepNameChars (s : string) : string :=
  match s with
  | EmptyString => EmptyString
  | String c t =>
      if isNameChar c then String c (keepNameChars t) else keepNameChars t
  end.

Definition keyName (key : string) : string :=
  keepNameChars (underscoreSpaces false key).

(** [structuredContent] of a successful answer. *)
Record StructuredContent : Type :=
  { filename : string; key : string; numChords : Z; progression : string }.

(** What the [try] block threw: the tool's own range error, whose message is
    "numChords must be between 2 and 6", or an error of the engine. *)
Inductive thrown : Type :=
  | CountOutOfRange
  | Engine (e : error).

(** The answer of the tool.  A failure answers [isError: true] with the text
    "Error generating chord progression: " followed by the message of what was
    thrown; the model keeps what was thrown. *)
Inductive answer : Type :=
  | Success (data : string) (text : string) (structuredContent : StructuredContent)
  | Failure (cause : thrown).

Section Handler.

(** The MIDI file of a track, base64 encoded: the work of the MIDI writer and
    of [Buffer]. *)
Variable base64OfTrack : list NoteEvent -> string.

(** The callback registered for the tool ['get-chord-progression'].
    [numChords] is [None] when the caller leaves it out. *)
Definition handler (key : string) (numChords : option Z) : answer :=
  let numChords := default 4 numChords in
  if (numChords <? 2) || (numChords >? 6) then Failure CountOutOfRange
  else
    match createChordProgression key numChords with
    | Err e => Failure (Engine e)
    | Ok track =>
        let base64Data := base64OfTrack track in
        let filename := keyName key +:+ "_chords.mid" in
        let progression := getProgressionDescription numChords in
        Success base64Data
          ("Generated MIDI file with " +:+ JS.ofInt numChords +:+
           " chord progression (" +:+ progression +:+ ") in " +:+ key +:+
           ". File: " +:+ filename)
          {| filename := filename; key := key; numChords := numChords;
             progression := progression |}
    end.

End Handler.

End Index.

(** ** The tool before the chord count was added *)

Module IndexV1.

(** [structuredContent] of a successful answer. *)
Record StructuredContent : Type :=
  { filename : string; key : string; progression : string }.

(** A failure answers [isError: true] with the message of the error the engine
    threw; the model keeps the error. *)
Inductive answer : Type :=
  | Success (data : string) (text : string) (structuredContent : StructuredContent)
  | Failure (e : error).

Section Handler.

Variable base64OfTrack : list NoteEvent -> string.

(** The callback of the tool: [createChordProgression(key)] runs with the
    default of four chords. *)
Definition handler (key : string) : answer :=
  match createChordProgression key 4 with
  | Err e => Failure e
  | Ok track =>
      let base64Data := base64OfTrack track in
      let filename := Index.keyName key +:+ "_chords.mid" in
      Success base64Data
        ("Generated MIDI file with I-IV-V-I chord progression in " +:+ key +:+
         ". File: " +:+ filename)
        {| filename := filename; key := key; progression := "I-IV-V-I" |}
  end.

End Handler.

End IndexV1.

(** ** Vocabulary of the properties *)

(** A note event as the entry point builds it. *)
Definition chord (names : list string) : NoteEvent :=
  {| pitch := map Note names; duration := "1"; velocity := 100 |}.

(** The triad intervals the builder picks. *)
Definition triadOf (isMinor : bool) (degree : Z) : list Z :=
  if (if isMinor then includes [1; 4; 5] degree else includes [2; 3; 6] degree)
  then MINOR_TRIAD else MAJOR_TRIAD.

(** The diatonic rule as the specification words it. *)
Definition minorTriadDegree (isMinor : bool) (degree : Z) : Prop :=
  (isMinor = false /\ (degree = 2 \/ degree = 3 \/ degree = 6)) \/
  (isMinor = true /\ (degree = 1 \/ degree = 4 \/ degree = 5)).

(** The round trip of a degree name through the pitch table: the name has an
    entry, and the entry has the pitch class of root plus scale offset. *)
Definition roundTrip (root : string) (degree : Z) (isMinor : bool) : Prop :=
  exists rootMidi offset name p,
    NOTE_TO_MIDI !! root = Some rootMidi /\
    index (if isMinor then MINOR_SCALE else MAJOR_SCALE) (degreeIndex degree) = Some offset /\
    getScaleDegreeNote root degree isMinor = Ok (Some name) /\
    NOTE_TO_MIDI !! name = Some p /\
    p mod 12 = (rootMidi + offset) mod 12.

(** A pitch of the fourth or fifth octave: the name of a MIDI number between
    60 (C4) and 78 (F#5). *)
Definition inRange (p : note) : Prop :=
  exists m, 60 <= m <= 78 /\ p = noteOfMidi m /\ (m / 12 - 1 = 4 \/ m / 12 - 1 = 5).

(** Does the string hold the letter m, in either case? *)
Fixpoint hasM (s : string) : bool :=
  match s with
  | EmptyString => false
  | String c t => Regex.isM c || hasM t
  end.

(** Does the string start with a lower-case letter? *)
Definition startsLower (s : string) : bool :=
  match s with
  | EmptyString => false
  | String c _ => JS.isLower c
  end.

(** Does the string start with white space? *)
Definition startsWithSpace (s : string) : bool :=
  match s with
  | EmptyString => false
  | String c _ => JS.isSpace c
  end.

(** The key with its mode words and outer white space removed. *)
Definition rootToken (key : string) : string :=
  JS.trim (Regex.removeAll Regex.modeWords (JS.trim key)).

(** [Number.isSafeInteger]: an integer that doubles hold and tell apart from
    its neighbours. *)
Definition safeInteger (z : Z) : Prop :=
  - Double.MAX_SAFE_INTEGER <= z <= Double.MAX_SAFE_INTEGER.

(** The octaves, up to 2^49 in size, at which every number of [noteToMidi]
    and of the display of a note is a safe integer. *)
Definition safeOctave (octave : Z) : Prop := Z.abs octave <= 562949953421312.

(** The two degree names that are missing from the pitch table: the fourth
    degree of Gb and the seventh of F#, and the degrees a multiple of seven
    away from them. *)
Definition misspelled (root : string) (degree : Z) : option string :=
  if String.eqb root "Gb" && (degree mod 7 =? 4) then Some "Cb"
  else if String.eqb root "F#" && (degree mod 7 =? 0) then Some "E#"
  else None.

(** The minor markers behind a root, without and with a space, in lower
    case. *)
Definition minorSuffixes : list string :=
  ["m"; "min"; "minor"; " m"; " min"; " minor"].

(** The names every object inherits that start with an underscore: the
    parser, which puts the first letter of a root in upper case, leaves them
    as they are. *)
Definition underscoreNames : list string :=
  ["__defineGetter__"; "__defineSetter__"; "__lookupGetter__";
   "__lookupSetter__"; "__proto__"].

(** A note event of the shape the entry point builds: three notes, a whole
    note long, at velocity 100. *)
Definition wholeTriad (e : NoteEvent) : Prop :=
  length (pitch e) = 3%nat /\ duration e = "1" /\ velocity e = 100.

(** The Roman numeral of a degree in a Major key: lower case where the
    chord builder makes the chord minor there. *)
Definition numeral (degree : Z) : string :=
  let upper :=
    default "?" ((["I"; "II"; "III"; "IV"; "V"; "VI"; "VII"] : list string)
                   !! Z.to_nat (degree - 1)) in
  if includes [2; 3; 6] degree then JS.toLowerCase upper else upper.

(** Do all characters of the string satisfy the test? *)
Fixpoint allChars (p : ascii -> bool) (s : string) : bool :=
  match s with
  | EmptyString => true
  | String c t => p c && allChars p t
  end.

(** * Properties *)

(** The functions of the engine are unfolded where a proof asks for it. *)
Arguments parseKey : simpl never.
Arguments noteToMidi : simpl never.
Arguments getScaleDegreeNote : simpl never.
Arguments noteOfMidi : simpl never.
Arguments getChordNotes : simpl never.
Arguments getProgressionDegrees : simpl never.

(** ** The embedding at work *)

(** Rounding to a double: exact up to 2^53; above, even neighbours only, a
    tie going to the even significand. *)
Example round_examples :
  Double.round 9007199254740992 = 9007199254740992 /\
  Double.round 9007199254740993 = 9007199254740992 /\
  Double.round 9007199254740995 = 9007199254740996 /\
  Double.round (-9007199254740995) = -9007199254740996 /\
  Double.round 18014398509481986 = 18014398509481984 /\
  Double.round 18014398509481987 = 18014398509481988.
Proof. by vm_compute. Qed.

Example trim_example : JS.trim "  C  major " = "C  major".
Proof. reflexivity. Qed.

Example ofInt_example : JS.ofInt 4 = "4" /\ JS.ofInt (-1) = "-1" /\ JS.ofInt 12 = "12".
Proof. repeat split. Qed.

Example parseKey_examples :
  parseKey "A minor" = Some {| root := "A"; isMinor := true |} /\
  parseKey "f#" = Some {| root := "F#"; isMinor := false |} /\
  parseKey "Bbm" = Some {| root := "Bb"; isMinor := true |} /\
  parseKey "Bb minor" = Some {| root := "Bb"; isMinor := true |} /\
  parseKey EmptyString = None /\ parseKey " minor " = None.
Proof. by vm_compute. Qed.

Example get_examples :
  get NOTE_TO_MIDI "Gb" = Own 66 /\ get NOTE_TO_MIDI "Cb" = Undefined /\
  get NOTE_TO_MIDI "__proto__" = Inherited.
Proof. by vm_compute. Qed.

Example createChordProgression_errors :
  createChordProgression EmptyString 4 = Err (InvalidKeyFormat EmptyString) /\
  createChordProgression "H major" 4 = Err (InvalidRootNote "H") /\
  createChordProgression "C" 7 = Err (InvalidChordCount 7) /\
  createChordProgression "__proto__" 4 = Err (InvalidNoteName "undefined").
Proof. by vm_compute. Qed.

Example getChordNotes_low_octaves :
  getChordNotes "C" 1 false (-1) = Ok [Note "C-1"; Note "E-1"; Note "G-1"] /\
  getChordNotes "C" 1 false (-2) = Ok [Note "C-2"; NaN; NaN].
Proof. by vm_compute. Qed.

(** ** Reading the tables *)

Lemma NOTE_TO_MIDI_entry (root : string) (m : Z) :
  NOTE_TO_MIDI !! root = Some m -> (root, m) ∈ NOTE_TO_MIDI_entries.
Proof. apply elem_of_list_to_map_2. Qed.

Lemma keyPrefs_entry (root : string) (row : list string) :
  keyPrefs !! root = Some row -> (root, row) ∈ keyPrefs_entries.
Proof. apply elem_of_list_to_map_2. Qed.

(** One goal per element of a concrete list [H : x ∈ [a; b; ...]]. *)
Ltac each_elem H :=
  repeat (apply elem_of_cons in H as [H | H]; [inversion H; subst; clear H |]);
  try (apply elem_of_nil in H; contradiction).

(** One goal per entry of the pitch table. *)
Ltac each_root H :=
  apply NOTE_TO_MIDI_entry in H; unfold NOTE_TO_MIDI_entries in H; each_elem H.

Lemma NOTE_TO_MIDI_range (root : string) (m : Z) :
  NOTE_TO_MIDI !! root = Some m -> 60 <= m <= 71.
Proof. intros H. each_root H; lia. Qed.

Lemma get_NOTE_TO_MIDI_Own (root : string) (m : Z) :
  get NOTE_TO_MIDI root = Own m <-> NOTE_TO_MIDI !! root = Some m.
Proof.
  unfold get. destruct (NOTE_TO_MIDI !! root) as [m' |].
  - split; congruence.
  - case_bool_decide; split; discriminate.
Qed.

(** ** The progression selector *)

(** C7.  For every integer [n], [getProgressionDegrees] throws exactly when
    [n < 2] or [n > 6], and what it throws is then the chord-count error; on
    2, 3, 4, 5 and 6 it returns the fixed templates I-V, I-IV-V, I-IV-V-I,
    I-vi-IV-V-I and I-vi-IV-V-I-IV. *)
Theorem getProgressionDegrees_spec :
  (forall n : Z,
      ((exists e, getProgressionDegrees n = Err e) <-> n < 2 \/ n > 6) /\
      (getProgressionDegrees n = Err (InvalidChordCount n) <-> n < 2 \/ n > 6)) /\
  getProgressionDegrees 2 = Ok (Some [1; 5]) /\
  getProgressionDegrees 3 = Ok (Some [1; 4; 5]) /\
  getProgressionDegrees 4 = Ok (Some [1; 4; 5; 1]) /\
  getProgressionDegrees 5 = Ok (Some [1; 6; 4; 5; 1]) /\
  getProgressionDegrees 6 = Ok (Some [1; 6; 4; 5; 1; 4]).
Proof.
  split; [| by vm_compute].
  intros n. unfold getProgressionDegrees.
  destruct (n <? 2) eqn:Hlo; [apply Z.ltb_lt in Hlo | apply Z.ltb_ge in Hlo]; simpl.
  - split; split; intros; eauto.
  - destruct (n >? 6) eqn:Hhi; rewrite Z.gtb_ltb in Hhi;
      [apply Z.ltb_lt in Hhi | apply Z.ltb_ge in Hhi].
    + split; split; intros; eauto; lia.
    + split; split; try lia; [intros [e He] | intros He]; discriminate.
Qed.

(** Between 2 and 6 the selector never returns [undefined]. *)
Lemma getProgressionDegrees_defined (n : Z) :
  2 <= n <= 6 -> exists degrees, getProgressionDegrees n = Ok (Some degrees).
Proof.
  intros Hn.
  assert (n = 2 \/ n = 3 \/ n = 4 \/ n = 5 \/ n = 6) as Hc by lia.
  destruct Hc as [-> | [-> | [-> | [-> | ->]]]]; vm_compute; eauto.
Qed.

(** ** The key parser *)

(** C2, evaluated on the code.  For every root [X] of the pitch table the
    parser reads ["X major"] as a MINOR key: the letter m of the word major is
    itself one of the minor indicators.  The claim asks for Major mode. *)
Theorem parseKey_major_is_minor (X : string) :
  is_Some (NOTE_TO_MIDI !! X) ->
  parseKey (X +:+ " major") = Some {| root := X; isMinor := true |}.
Proof.
  intros [m H]. each_root H; reflexivity.
Qed.

Lemma parseKey_major_is_minor_witness :
  is_Some (NOTE_TO_MIDI !! "C") /\
  parseKey ("C" +:+ " major") = Some {| root := "C"; isMinor := true |}.
Proof.
  assert (is_Some (NOTE_TO_MIDI !! "C")) as H by (exists 60; reflexivity).
  split; [exact H | exact (parseKey_major_is_minor "C" H)].
Defined.

(** Without the word major the same roots are read as Major keys. *)
Lemma parseKey_bare_root (X : string) :
  is_Some (NOTE_TO_MIDI !! X) ->
  parseKey X = Some {| root := X; isMinor := false |}.
Proof.
  intros [m H]. each_root H; reflexivity.
Qed.

(** ** The entry point on the examples of the specification *)

(** C1, evaluated on the code.  [createChordProgression "C major" 4] parses
    the key as C minor and renders the degrees 1, 4, 5, 1 as the minor triads
    C-Eb-G, F-Ab-C, G-Bb-D, C-Eb-G (named with sharps), not as the major
    triads C-E-G, F-A-C, G-B-D, C-E-G the claim states. *)
Theorem createChordProgression_C_major :
  parseKey "C major" = Some {| root := "C"; isMinor := true |} /\
  getProgressionDegrees 4 = Ok (Some [1; 4; 5; 1]) /\
  createChordProgression "C major" 4 =
    Ok [chord ["C4"; "D#4"; "G4"]; chord ["F4"; "G#4"; "C5"];
        chord ["G4"; "A#4"; "D5"]; chord ["C4"; "D#4"; "G4"]] /\
  createChordProgression "C major" 4 <>
    Ok [chord ["C4"; "E4"; "G4"]; chord ["F4"; "A4"; "C5"];
        chord ["G4"; "B4"; "D5"]; chord ["C4"; "E4"; "G4"]].
Proof.
  repeat split; try by vm_compute.
Qed.

(** The chords the claim lists are those of the bare key ["C"]. *)
Lemma createChordProgression_C :
  createChordProgression "C" 4 =
    Ok [chord ["C4"; "E4"; "G4"]; chord ["F4"; "A4"; "C5"];
        chord ["G4"; "B4"; "D5"]; chord ["C4"; "E4"; "G4"]].
Proof. by vm_compute. Qed.

(** C8.  [createChordProgression "A minor" 3] takes the degrees 1, 4, 5 and
    returns the chords A minor (A4, C5, E5), D minor (D4, F4, A4) and
    E minor (E4, G4, B4). *)
Theorem createChordProgression_A_minor :
  parseKey "A minor" = Some {| root := "A"; isMinor := true |} /\
  getProgressionDegrees 3 = Ok (Some [1; 4; 5]) /\
  createChordProgression "A minor" 3 =
    Ok [chord ["A4"; "C5"; "E5"]; chord ["D4"; "F4"; "A4"];
        chord ["E4"; "G4"; "B4"]] /\
  map noteOfMidi [69; 69 + 3; 69 + 7] = map Note ["A4"; "C5"; "E5"] /\
  map noteOfMidi [62; 62 + 3; 62 + 7] = map Note ["D4"; "F4"; "A4"] /\
  map noteOfMidi [64; 64 + 3; 64 + 7] = map Note ["E4"; "G4"; "B4"].
Proof.
  repeat split; by vm_compute.
Qed.

(** C4.  The key ["Gb major"] is accepted by the parser, its root Gb is in the
    pitch table and 4 is a chord count in range, yet the entry point throws
    "Invalid note name: Cb": the Gb row of the spelling table names the fourth
    degree Cb, which the pitch table does not have.  This error is none of
    the three input errors (key format, root note, chord count). *)
Theorem createChordProgression_Gb_major_throws :
  parseKey "Gb major" = Some {| root := "Gb"; isMinor := true |} /\
  NOTE_TO_MIDI !! "Gb" = Some 66 /\
  getProgressionDegrees 4 = Ok (Some [1; 4; 5; 1]) /\
  (forall isMinor, getScaleDegreeNote "Gb" 4 isMinor = Ok (Some "Cb")) /\
  NOTE_TO_MIDI !! "Cb" = None /\
  createChordProgression "Gb major" 4 = Err (InvalidNoteName "Cb") /\
  (forall e, createChordProgression "Gb major" 4 = Err e ->
             e <> InvalidKeyFormat "Gb major" /\
             (forall r, e <> InvalidRootNote r) /\
             (forall n, e <> InvalidChordCount n)).
Proof.
  assert (createChordProgression "Gb major" 4 = Err (InvalidNoteName "Cb")) as Hrun
    by (by vm_compute).
  split; [by vm_compute |]. split; [by vm_compute |]. split; [by vm_compute |].
  split; [by intros [] |]. split; [by vm_compute |]. split; [exact Hrun |].
  intros e He. rewrite Hrun in He. injection He as <-.
  split; [| split]; intros; discriminate.
Qed.

(** C5, as stated, fails: on the empty key with seven chords the entry point
    throws the key-format error, not the chord-count error. *)
Lemma createChordProgression_count_not_first :
  parseKey EmptyString = None /\ (7 < 2 \/ 7 > 6) /\
  createChordProgression EmptyString 7 = Err (InvalidKeyFormat EmptyString) /\
  createChordProgression EmptyString 7 <> Err (InvalidChordCount 7).
Proof.
  repeat split; try by vm_compute. right; lia.
Qed.

(** C5, amended.  The entry point parses the key before it looks at the chord
    count: whenever the parser rejects the key, the entry point throws the
    key-format error, whatever the chord count. *)
Theorem createChordProgression_key_first (key : string) (numChords : Z) :
  parseKey key = None ->
  createChordProgression key numChords = Err (InvalidKeyFormat key).
Proof.
  intros H. unfold createChordProgression. by rewrite H.
Qed.

Lemma createChordProgression_key_first_witness :
  parseKey EmptyString = None /\ createChordProgression EmptyString 7 = Err (InvalidKeyFormat EmptyString).
Proof.
  split; [reflexivity |].
  apply (createChordProgression_key_first EmptyString 7). reflexivity.
Defined.

(** X21.  The chord count is checked third, after the root: a key that parses
    to a root of the pitch table and a count outside 2..6 give the chord-count
    error. *)
Lemma createChordProgression_count_third (key : string) (k : KeyInfo) (numChords : Z) :
  parseKey key = Some k -> is_Some (NOTE_TO_MIDI !! root k) ->
  numChords < 2 \/ numChords > 6 ->
  createChordProgression key numChords = Err (InvalidChordCount numChords).
Proof.
  intros Hk [m Hm] Hn. unfold createChordProgression. rewrite Hk.
  pose proof (NOTE_TO_MIDI_range _ _ Hm) as Hr.
  apply get_NOTE_TO_MIDI_Own in Hm. cbv zeta. rewrite Hm. cbn [truthy].
  destruct (m =? 0) eqn:E; [apply Z.eqb_eq in E; lia |]. cbn [negb].
  destruct Hn as [Hn | Hn].
  - apply Z.ltb_lt in Hn. by rewrite Hn.
  - apply Z.gt_lt, Z.ltb_lt in Hn. rewrite Z.gtb_ltb, Hn. by rewrite orb_true_r.
Qed.

(** ** The scale engine *)

Section DegreeIndex.

Local Ltac euclid := Z.to_euclidean_division_equations; lia.

(** Up to 2^53 in size an integer is its own double. *)
Lemma round_exact (z : Z) :
  Z.abs z <= Double.MAX_SAFE_INTEGER + 1 -> Double.round z = z.
Proof.
  intros H. unfold Double.round. cbv zeta.
  apply Z.leb_le in H. by rewrite H.
Qed.

(** Where the subtraction is exact the double remainder is the non-negative
    remainder. *)
Lemma degreeIndex_mod (degree : Z) :
  safeInteger degree -> degreeIndex degree = (degree - 1) mod 7.
Proof.
  unfold safeInteger, Double.MAX_SAFE_INTEGER. intros H. unfold degreeIndex.
  rewrite round_exact by (unfold Double.MAX_SAFE_INTEGER; lia). euclid.
Qed.

Lemma degreeIndex_range (degree : Z) : 0 <= degreeIndex degree <= 6.
Proof. unfold degreeIndex. generalize (Double.round (degree - 1)). intros x. euclid. Qed.

Lemma degreeIndex_period (degree : Z) :
  safeInteger degree -> safeInteger (degree + 7) ->
  degreeIndex (degree + 7) = degreeIndex degree.
Proof. intros H H'. rewrite !degreeIndex_mod by done. euclid. Qed.

Lemma degreeIndex_1_7 (degree : Z) :
  1 <= degree <= 7 -> degreeIndex degree = degree - 1.
Proof.
  intros H. rewrite degreeIndex_mod; [euclid |].
  unfold safeInteger, Double.MAX_SAFE_INTEGER. lia.
Qed.

End DegreeIndex.

(** The degree enters [getScaleDegreeNote] through its index only. *)
Lemma getScaleDegreeNote_index (root : string) (d d' : Z) (isMinor : bool) :
  degreeIndex d = degreeIndex d' ->
  getScaleDegreeNote root d isMinor = getScaleDegreeNote root d' isMinor.
Proof. intros H. unfold getScaleDegreeNote. by rewrite H. Qed.

(** One goal per scale index 0..6. *)
Ltac each_index i Hi :=
  let Hc := fresh in
  assert (i = 0 \/ i = 1 \/ i = 2 \/ i = 3 \/ i = 4 \/ i = 5 \/ i = 6) as Hc by lia;
  clear Hi; destruct Hc as [-> | [-> | [-> | [-> | [-> | [-> | ->]]]]]].

(** On a root of the pitch table every scale index yields a name. *)
Lemma getScaleDegreeNote_defined (root : string) (degree : Z) (isMinor : bool) :
  is_Some (NOTE_TO_MIDI !! root) ->
  exists name, getScaleDegreeNote root degree isMinor = Ok (Some name).
Proof.
  intros [m H]. unfold getScaleDegreeNote.
  pose proof (degreeIndex_range degree) as Hi.
  generalize dependent (degreeIndex degree). intros i Hi.
  each_index i Hi; each_root H; destruct isMinor; vm_compute; eauto.
Qed.

(** C9, as stated, fails: the lookup is not 7-periodic over all integers.
    The degree 9007199254740989 names the tonic of C; seven degrees on, at
    9007199254740996 = 2^53 + 4, the subtraction [degree - 1] rounds back to
    2^53 + 4 and the lookup names the second degree. *)
Lemma getScaleDegreeNote_period_fails :
  is_Some (NOTE_TO_MIDI !! "C") /\
  Double.round (9007199254740989 + 7 - 1) = 9007199254740989 + 7 /\
  getScaleDegreeNote "C" 9007199254740989 false = Ok (Some "C") /\
  getScaleDegreeNote "C" (9007199254740989 + 7) false = Ok (Some "D") /\
  getScaleDegreeNote "C" (9007199254740989 + 7) false <>
    getScaleDegreeNote "C" 9007199254740989 false.
Proof.
  split; [by exists 60 |]. split; [by vm_compute |]. split; [by vm_compute |].
  split; [by vm_compute |]. by vm_compute.
Qed.

(** C9, amended.  On a root of the pitch table, in both modes and for every
    integer degree (negative, zero or above 7 included), the scale index
    [((degree - 1) % 7 + 7) % 7] lies in 0..6 and [getScaleDegreeNote] returns
    a note name; where [degree] and [degree + 7] are safe integers it returns
    the same for [degree + 7]. *)
Theorem getScaleDegreeNote_total_periodic (root : string) (degree : Z) (isMinor : bool) :
  is_Some (NOTE_TO_MIDI !! root) ->
  0 <= degreeIndex degree <= 6 /\
  (exists name, getScaleDegreeNote root degree isMinor = Ok (Some name)) /\
  (safeInteger degree -> safeInteger (degree + 7) ->
   getScaleDegreeNote root (degree + 7) isMinor = getScaleDegreeNote root degree isMinor).
Proof.
  intros Hroot. split; [apply degreeIndex_range |]. split.
  - by apply getScaleDegreeNote_defined.
  - intros H H'. by apply getScaleDegreeNote_index, degreeIndex_period.
Qed.

Lemma getScaleDegreeNote_total_periodic_witness :
  is_Some (NOTE_TO_MIDI !! "F#") /\
  0 <= degreeIndex (-3) <= 6 /\
  (exists name, getScaleDegreeNote "F#" (-3) true = Ok (Some name)) /\
  safeInteger (-3) /\ safeInteger (-3 + 7) /\
  getScaleDegreeNote "F#" (-3 + 7) true = getScaleDegreeNote "F#" (-3) true.
Proof.
  assert (is_Some (NOTE_TO_MIDI !! "F#")) as H by (exists 66; reflexivity).
  assert (safeInteger (-3)) as Hs by (unfold safeInteger, Double.MAX_SAFE_INTEGER; lia).
  assert (safeInteger (-3 + 7)) as Hs'
    by (unfold safeInteger, Double.MAX_SAFE_INTEGER; lia).
  destruct (getScaleDegreeNote_total_periodic "F#" (-3) true H) as (Hi & Hn & Hp).
  split; [exact H |]. split; [exact Hi |]. split; [exact Hn |].
  split; [exact Hs |]. split; [exact Hs' |]. exact (Hp Hs Hs').
Defined.

(** The spelled degree names of a key and the pitch table: what holds and
    what does not. *)

(** C3, evaluated on the code.  The round trip fails in three places.  Key
    Gb spells its fourth degree Cb and key F# its seventh degree E#, and
    neither name is in the pitch table.  In Minor mode the name is still
    taken from the major-key row of the root: the third degree of C minor
    comes out as E (pitch class 4), where root plus offset is 60 + 3 (pitch
    class 3). *)
Theorem getScaleDegreeNote_roundTrip_fails :
  (getScaleDegreeNote "Gb" 4 false = Ok (Some "Cb") /\ NOTE_TO_MIDI !! "Cb" = None) /\
  (getScaleDegreeNote "F#" 7 false = Ok (Some "E#") /\ NOTE_TO_MIDI !! "E#" = None) /\
  (getScaleDegreeNote "C" 3 true = Ok (Some "E") /\ NOTE_TO_MIDI !! "C" = Some 60 /\
   index MINOR_SCALE (degreeIndex 3) = Some 3 /\
   NOTE_TO_MIDI !! "E" = Some 64 /\ 64 mod 12 <> (60 + 3) mod 12) /\
  ~ roundTrip "Gb" 4 false /\ ~ roundTrip "F#" 7 false /\ ~ roundTrip "C" 3 true.
Proof.
  split; [by vm_compute |]. split; [by vm_compute |].
  split; [by vm_compute |].
  split; [| split].
  - intros (rootMidi & offset & name & p & _ & _ & Hn & Hp & _).
    vm_compute in Hn. injection Hn as <-. vm_compute in Hp. discriminate Hp.
  - intros (rootMidi & offset & name & p & _ & _ & Hn & Hp & _).
    vm_compute in Hn. injection Hn as <-. vm_compute in Hp. discriminate Hp.
  - intros (rootMidi & offset & name & p & Hr & Ho & Hn & Hp & Hpc).
    vm_compute in Hr, Ho, Hn.
    injection Hr as <-. injection Ho as <-. injection Hn as <-.
    vm_compute in Hp. injection Hp as <-. vm_compute in Hpc. discriminate Hpc.
Qed.

(** X10.  In Major mode the round trip holds everywhere else: on every root
    of the pitch table and every degree 1..7 other than the fourth of Gb and
    the seventh of F#. *)
Lemma getScaleDegreeNote_roundTrip_major (root : string) (degree : Z) :
  is_Some (NOTE_TO_MIDI !! root) -> 1 <= degree <= 7 ->
  (root, degree) <> ("Gb", 4) -> (root, degree) <> ("F#", 7) ->
  roundTrip root degree false.
Proof.
  intros [m H] Hd HGb HFs.
  assert (degree = 1 \/ degree = 2 \/ degree = 3 \/ degree = 4 \/ degree = 5 \/
          degree = 6 \/ degree = 7) as Hc by lia.
  clear Hd. unfold roundTrip.
  destruct Hc as [-> | [-> | [-> | [-> | [-> | [-> | ->]]]]]]; each_root H;
    try (exfalso; by (apply HGb || apply HFs));
    do 4 eexists; (split; [by vm_compute |]); (split; [by vm_compute |]);
    (split; [by vm_compute |]); (split; [by vm_compute |]); by vm_compute.
Qed.

(** ** The chord builder *)

(** A name returned by the scale engine is never one the pitch table merely
    inherits. *)
Lemma getScaleDegreeNote_not_inherited
    (root : string) (degree : Z) (isMinor : bool) (name : string) :
  getScaleDegreeNote root degree isMinor = Ok (Some name) ->
  get NOTE_TO_MIDI name <> Inherited.
Proof.
  unfold getScaleDegreeNote.
  pose proof (degreeIndex_range degree) as Hi.
  generalize dependent (degreeIndex degree). intros i Hi.
  destruct (get NOTE_TO_MIDI root) as [m | |] eqn:G; [| | discriminate].
  - apply get_NOTE_TO_MIDI_Own in G.
    each_index i Hi; each_root G; destruct isMinor; intros H;
      vm_compute in H; injection H as <-; by vm_compute.
  - unfold get at 1. destruct (keyPrefs !! root) as [row |] eqn:K.
    + apply keyPrefs_entry in K. unfold keyPrefs_entries in K.
      each_elem K; vm_compute in G; discriminate G.
    + case_bool_decide; discriminate.
Qed.

(** What a successful [noteToMidi] on a scale-engine name returned. *)
Lemma noteToMidi_Ok (noteName : option string) (octave : Z) (r : option Z) :
  noteToMidi noteName octave = Ok r ->
  (exists name base, noteName = Some name /\ NOTE_TO_MIDI !! name = Some base /\
                     r = Some (base + (octave - 4) * 12)) \/
  (exists name, noteName = Some name /\ get NOTE_TO_MIDI name = Inherited /\ r = None).
Proof.
  unfold noteToMidi. destruct noteName as [name |].
  - change (propertyKey (Some name)) with name.
    destruct (get NOTE_TO_MIDI name) as [base | |] eqn:G; intros H;
      [| | discriminate]; injection H as <-.
    + left. exists name, base. by apply get_NOTE_TO_MIDI_Own in G.
    + right. by exists name.
  - vm_compute. discriminate.
Qed.

(** A successful [getChordNotes] in full: the chord root is a name of the
    pitch table and the notes render root plus interval, interval by
    interval. *)
Lemma getChordNotes_Ok
    (root : string) (degree : Z) (isMinor : bool) (octave : Z) (notes : list note) :
  getChordNotes root degree isMinor octave = Ok notes ->
  exists chordRoot base,
    getScaleDegreeNote root degree isMinor = Ok (Some chordRoot) /\
    NOTE_TO_MIDI !! chordRoot = Some base /\
    notes = map (fun interval => noteOfMidi (base + (octave - 4) * 12 + interval))
                (triadOf isMinor degree).
Proof.
  unfold getChordNotes.
  destruct (getScaleDegreeNote root degree isMinor) as [chordRoot | e] eqn:Hs;
    [| discriminate].
  cbn [mbind result_bind].
  destruct (noteToMidi chordRoot octave) as [r | e] eqn:Hm; [| discriminate].
  cbn [mbind result_bind]. intros H. injection H as <-.
  apply noteToMidi_Ok in Hm
    as [(name & base & -> & Hb & ->) | (name & -> & Hinh & _)].
  - by exists name, base.
  - by apply getScaleDegreeNote_not_inherited in Hs.
Qed.

Lemma includes_145 (degree : Z) :
  includes [1; 4; 5] degree = true <-> degree = 1 \/ degree = 4 \/ degree = 5.
Proof.
  unfold includes. simpl.
  destruct (Z.eqb_spec degree 1), (Z.eqb_spec degree 4), (Z.eqb_spec degree 5);
    simpl; split; intros; try done; try lia; auto.
Qed.

Lemma includes_236 (degree : Z) :
  includes [2; 3; 6] degree = true <-> degree = 2 \/ degree = 3 \/ degree = 6.
Proof.
  unfold includes. simpl.
  destruct (Z.eqb_spec degree 2), (Z.eqb_spec degree 3), (Z.eqb_spec degree 6);
    simpl; split; intros; try done; try lia; auto.
Qed.

Lemma triadOf_rule (isMinor : bool) (degree : Z) :
  (minorTriadDegree isMinor degree -> triadOf isMinor degree = [0; 3; 7]) /\
  (~ minorTriadDegree isMinor degree -> triadOf isMinor degree = [0; 4; 7]).
Proof.
  unfold triadOf, minorTriadDegree. destruct isMinor.
  - destruct (includes [1; 4; 5] degree) eqn:E.
    + split; [done |]. intros H. exfalso. apply H. right. split; [done |].
      by apply includes_145.
    + split; [| done]. intros [[? _] | [_ H]]; [done |].
      apply includes_145 in H. congruence.
  - destruct (includes [2; 3; 6] degree) eqn:E.
    + split; [done |]. intros H. exfalso. apply H. left. split; [done |].
      by apply includes_236.
    + split; [| done]. intros [[_ H] | [? _]]; [| done].
      apply includes_236 in H. congruence.
Qed.

(** Neighbouring MIDI numbers from 0 up have different pitch names: a perfect
    fifth is never displayed like the diminished fifth below it. *)
Lemma noteOfMidi_succ_ne (m : Z) : 0 <= m -> noteOfMidi m <> noteOfMidi (m + 1).
Proof.
  intros Hm. unfold noteOfMidi.
  assert (exists q k, m = 12 * q + k /\ 0 <= k < 12) as (q & k & -> & Hk).
  { exists (m / 12), (m mod 12). Z.to_euclidean_division_equations; lia. }
  assert (Z.rem (12 * q + k) 12 = k /\ (12 * q + k) / 12 = q) as [-> ->]
    by (Z.to_euclidean_division_equations; lia).
  destruct (Z.eq_dec k 11) as [-> | Hne].
  - assert (Z.rem (12 * q + 11 + 1) 12 = 0 /\ (12 * q + 11 + 1) / 12 = q + 1)
      as [-> ->] by (Z.to_euclidean_division_equations; lia).
    change (midiToNote !! 11) with (Some "B").
    change (midiToNote !! 0) with (Some "C").
    cbn [String.append]. intros H. discriminate H.
  - assert (Z.rem (12 * q + k + 1) 12 = k + 1 /\ (12 * q + k + 1) / 12 = q)
      as [-> ->] by (Z.to_euclidean_division_equations; lia).
    generalize (JS.ofInt (q - 1)). intros s.
    assert (forall c : ascii, s <> String c s) as Hlen.
    { intros c E. apply (f_equal String.length) in E. simpl in E. lia. }
    assert (k = 0 \/ k = 1 \/ k = 2 \/ k = 3 \/ k = 4 \/ k = 5 \/ k = 6 \/
            k = 7 \/ k = 8 \/ k = 9 \/ k = 10) as Hc by lia.
    clear Hk Hne Hm.
    destruct Hc as [-> | [-> | [-> | [-> | [-> | [-> | [-> | [-> | [-> | [-> | ->]]]]]]]]]];
      simpl Z.add;
      repeat match goal with
        | |- context [midiToNote !! ?j] =>
            let v := eval vm_compute in (midiToNote !! j) in
            change (midiToNote !! j) with v
        end;
      cbn [String.append]; intros H; injection H; intros; try discriminate;
      try (eapply Hlen; eassumption); eapply Hlen; symmetry; eassumption.
Qed.


(** The builder does return on every root of the pitch table and every degree
    1..7, the two misspelled degrees apart, in both modes and every octave. *)
Lemma getChordNotes_returns
    (root : string) (degree : Z) (isMinor : bool) (octave : Z) :
  is_Some (NOTE_TO_MIDI !! root) -> 1 <= degree <= 7 ->
  (root, degree) <> ("Gb", 4) -> (root, degree) <> ("F#", 7) ->
  exists notes, getChordNotes root degree isMinor octave = Ok notes.
Proof.
  intros [m H] Hd HGb HFs.
  destruct (getScaleDegreeNote_defined root degree isMinor) as [name Hs];
    [by exists m |].
  assert (exists base, get NOTE_TO_MIDI name = Own base) as [base Hb].
  { assert (degree = 1 \/ degree = 2 \/ degree = 3 \/ degree = 4 \/ degree = 5 \/
            degree = 6 \/ degree = 7) as Hc by lia.
    clear Hd.
    destruct Hc as [-> | [-> | [-> | [-> | [-> | [-> | ->]]]]]]; each_root H;
      try (exfalso; apply HGb; reflexivity); try (exfalso; apply HFs; reflexivity);
      destruct isMinor; vm_compute in Hs; injection Hs as <-;
      match goal with
      | |- exists base, get NOTE_TO_MIDI ?name = _ =>
          let v := eval vm_compute in (NOTE_TO_MIDI !! name) in
          match v with Some ?b => exists b; vm_compute; reflexivity end
      end. }
  unfold getChordNotes. rewrite Hs. cbn [mbind result_bind].
  unfold noteToMidi. change (propertyKey (Some name)) with name. rewrite Hb.
  cbn [mbind result_bind]. eauto.
Qed.


(** ** The pitches the entry point emits *)

Lemma forEach_Ok {A B : Type} (f : A -> result B) (xs : list A) (ys : list B) :
  forEach f xs = Ok ys -> Forall2 (fun x y => f x = Ok y) xs ys.
Proof.
  revert ys. induction xs as [| x xs IH]; simpl; intros ys H.
  - injection H as <-. constructor.
  - destruct (f x) as [y | e] eqn:Hx; [| discriminate]. simpl in H.
    destruct (forEach f xs) as [ys' | e] eqn:Hxs; [| discriminate]. simpl in H.
    injection H as <-. constructor; auto.
Qed.

Lemma getChordNotes_inRange
    (root : string) (degree : Z) (isMinor : bool) (notes : list note) :
  getChordNotes root degree isMinor 4 = Ok notes -> Forall inRange notes.
Proof.
  intros H. apply getChordNotes_Ok in H as (chordRoot & base & _ & Hb & ->).
  apply NOTE_TO_MIDI_range in Hb.
  assert (Forall (fun i => 0 <= i <= 7) (triadOf isMinor degree)) as Hi.
  { unfold triadOf. destruct (if isMinor then _ else _);
      repeat constructor; lia. }
  induction Hi as [| i l Hi _ IH]; cbn [map]; constructor; [| exact IH].
  exists (base + (4 - 4) * 12 + i). split; [lia |]. split; [done |].
  Z.to_euclidean_division_equations; lia.
Qed.

(** On the emitted range the pitch names tell the MIDI numbers apart. *)
Lemma noteOfMidi_inj_range (m n : Z) :
  60 <= m <= 78 -> 60 <= n <= 78 -> noteOfMidi m = noteOfMidi n -> m = n.
Proof.
  intros Hm Hn.
  assert (Forall (fun a => Forall (fun b => noteOfMidi a = noteOfMidi b -> a = b)
                                  (seqZ 60 19)) (seqZ 60 19)) as Hall.
  { repeat constructor; vm_compute; intros E; first [reflexivity | discriminate E]. }
  rewrite Forall_forall in Hall. intros E.
  assert (m ∈ seqZ 60 19) as Hm' by (apply elem_of_seqZ; lia).
  assert (n ∈ seqZ 60 19) as Hn' by (apply elem_of_seqZ; lia).
  specialize (Hall m Hm'). rewrite Forall_forall in Hall. by apply Hall.
Qed.

(** C10.  Whenever [createChordProgression] succeeds, every pitch of every
    chord it emits is the name of a MIDI number between 60 (C4) and 78 (F#5),
    hence a valid MIDI note, displayed in octave 4 or 5. *)
Theorem createChordProgression_pitch_bound
    (key : string) (numChords : Z) (events : list NoteEvent) :
  createChordProgression key numChords = Ok events ->
  Forall (fun e => Forall inRange (pitch e)) events.
Proof.
  unfold createChordProgression.
  destruct (parseKey key) as [[keyRoot minor] |]; [| discriminate].
  cbv zeta. cbn [root isMinor].
  destruct (negb _); [discriminate |].
  destruct (_ || _); [discriminate |].
  destruct (getProgressionDegrees numChords) as [[progression |] | e];
    cbn [mbind result_bind]; try discriminate.
  intros H. apply forEach_Ok in H.
  induction H as [| degree e progression events Hd _ IH]; constructor; [| exact IH].
  destruct (getChordNotes keyRoot degree minor 4) as [notes | err] eqn:Hn;
    [| discriminate].
  cbn [mbind result_bind] in Hd. injection Hd as <-. cbn [pitch].
  by apply getChordNotes_inRange in Hn.
Qed.

Lemma createChordProgression_pitch_bound_witness :
  createChordProgression "A minor" 3 =
    Ok [chord ["A4"; "C5"; "E5"]; chord ["D4"; "F4"; "A4"]; chord ["E4"; "G4"; "B4"]] /\
  Forall (fun e => Forall inRange (pitch e))
    [chord ["A4"; "C5"; "E5"]; chord ["D4"; "F4"; "A4"]; chord ["E4"; "G4"; "B4"]].
Proof.
  split; [reflexivity |].
  apply (createChordProgression_pitch_bound "A minor" 3). reflexivity.
Defined.

(** The bounds are met: key B reaches F#5 = 78 and key C starts on C4 = 60. *)
Lemma createChordProgression_bounds_met :
  createChordProgression "B" 2 =
    Ok [chord ["B4"; "D#5"; "F#5"]; chord ["F#4"; "A#4"; "C#5"]] /\
  noteOfMidi 78 = Note "F#5" /\ noteOfMidi 60 = Note "C4" /\
  createChordProgression "C" 2 =
    Ok [chord ["C4"; "E4"; "G4"]; chord ["G4"; "B4"; "D5"]].
Proof. repeat split; by vm_compute. Qed.

(** * Further properties of the key parser *)

(** One goal per character. *)
Ltac each_ascii c := destruct c as [[] [] [] [] [] [] [] []].

Lemma isSpace_not_m (c : ascii) : JS.isSpace c = true -> Regex.isM c = false.
Proof. each_ascii c; by vm_compute. Qed.

Lemma isNoteLetter_plain (c : ascii) :
  Regex.isNoteLetter c = true -> Regex.isM c = false /\ JS.isSpace c = false.
Proof. each_ascii c; by vm_compute. Qed.

Lemma upperChar_m (c : ascii) : Regex.isM (JS.upperChar c) = Regex.isM c.
Proof. each_ascii c; by vm_compute. Qed.

Lemma upperChar_not_lower (c : ascii) : JS.isLower (JS.upperChar c) = false.
Proof. each_ascii c; by vm_compute. Qed.

Lemma isM_lower (c : ascii) : Ascii.eqb "m" (JS.lowerChar c) = Regex.isM c.
Proof. unfold Regex.isM. apply Ascii.eqb_sym. Qed.

(** Trimming neither adds nor removes an m. *)
Lemma hasM_trimStart (s : string) : hasM (JS.trimStart s) = hasM s.
Proof.
  induction s as [| c t IH]; [done |]. cbn [JS.trimStart].
  destruct (JS.isSpace c) eqn:E; [| done].
  cbn [hasM]. by rewrite (isSpace_not_m c E), IH.
Qed.

Lemma hasM_trimEnd (s : string) : hasM (JS.trimEnd s) = hasM s.
Proof.
  induction s as [| c t IH]; [done |]. cbn [JS.trimEnd hasM].
  destruct (JS.trimEnd t) as [| d t'] eqn:E.
  - cbn [hasM] in IH. rewrite <- IH, orb_false_r.
    destruct (JS.isSpace c) eqn:Hc; cbn [hasM].
    + by rewrite (isSpace_not_m c Hc).
    + by rewrite orb_false_r.
  - cbn [hasM] in *. by rewrite IH.
Qed.

Lemma hasM_trim (s : string) : hasM (JS.trim s) = hasM s.
Proof. unfold JS.trim. by rewrite hasM_trimEnd, hasM_trimStart. Qed.

(** The three minor indicators together test for an m. *)
Lemma includes_m (s : string) : JS.includes "m" (JS.toLowerCase s) = hasM s.
Proof.
  induction s as [| c t IH]; [done |].
  cbn [JS.toLowerCase JS.includes JS.startsWith hasM].
  by rewrite IH, isM_lower, andb_true_r.
Qed.

Lemma startsWith_first (a : ascii) (p s : string) :
  JS.startsWith (String a p) s = true -> JS.startsWith (String a EmptyString) s = true.
Proof.
  destruct s as [| b s']; cbn [JS.startsWith]; [done |].
  intros H. apply andb_true_iff in H as [-> _]. done.
Qed.

Lemma includes_first (a : ascii) (p s : string) :
  JS.includes (String a p) s = true -> JS.includes (String a EmptyString) s = true.
Proof.
  induction s as [| b s' IH]; cbn [JS.includes]; intros H.
  - by rewrite orb_false_r in H.
  - apply orb_true_iff in H as [H | H]; apply orb_true_iff.
    + left. by apply startsWith_first in H.
    + right. by apply IH.
Qed.

Lemma minorIndicators_m (s : string) :
  existsb (fun indicator => JS.includes (JS.toLowerCase indicator) (JS.toLowerCase s))
          minorIndicators = hasM s.
Proof.
  rewrite <- includes_m. unfold minorIndicators. cbn [existsb].
  change (JS.toLowerCase "minor") with "minor".
  change (JS.toLowerCase "min") with "min".
  change (JS.toLowerCase "m") with "m".
  rewrite orb_false_r.
  destruct (JS.includes "minor" _) eqn:E1; [by apply includes_first in E1 as -> |].
  destruct (JS.includes "min" _) eqn:E2; [by apply includes_first in E2 as -> |].
  done.
Qed.

(** Where the mode words match. *)
Lemma matchAlt_not_m (c : ascii) (t : string) :
  Regex.isM c = false -> Regex.matchAlt Regex.modeWords (String c t) = None.
Proof.
  intros H. unfold Regex.modeWords, Regex.matchAlt, Regex.startsWithCI.
  cbn [JS.toLowerCase JS.startsWith].
  change (JS.lowerChar "m") with "m"%char. change (JS.lowerChar "M") with "m"%char.
  by rewrite isM_lower, H.
Qed.

Lemma matchAlt_m (c : ascii) (t : string) :
  Regex.isM c = true -> exists k, Regex.matchAlt Regex.modeWords (String c t) = Some (S k).
Proof.
  intros H. unfold Regex.modeWords, Regex.matchAlt.
  repeat match goal with
         | |- context [if Regex.startsWithCI ?p ?s then _ else _] =>
             destruct (Regex.startsWithCI p s) eqn:?; [cbn; eauto |]
         end.
  match goal with
  | E : Regex.startsWithCI "m" _ = false |- _ =>
      unfold Regex.startsWithCI in E; cbn [JS.toLowerCase JS.startsWith] in E;
      change (JS.lowerChar "m") with "m"%char in E;
      rewrite isM_lower, H in E; discriminate E
  end.
Qed.

(** What is left after removing the mode words holds no m. *)
Lemma removeAllFrom_no_m (s : string) (skip : nat) :
  hasM (Regex.removeAllFrom Regex.modeWords skip s) = false.
Proof.
  revert skip. induction s as [| c t IH]; intros skip; [done |].
  cbn [Regex.removeAllFrom]. destruct skip as [| k]; [| apply IH].
  destruct (Regex.isM c) eqn:E.
  - destruct (matchAlt_m c t E) as [k ->]. apply IH.
  - rewrite (matchAlt_not_m c t E). cbn [hasM]. by rewrite E, IH.
Qed.

Lemma rootToken_no_m (key : string) : hasM (rootToken key) = false.
Proof. unfold rootToken, Regex.removeAll. rewrite hasM_trim. apply removeAllFrom_no_m. Qed.

Lemma trim_keeps_first (c : ascii) (t : string) :
  JS.isSpace c = false -> exists t', JS.trim (String c t) = String c t'.
Proof.
  intros H. unfold JS.trim. cbn [JS.trimStart]. rewrite H. cbn [JS.trimEnd].
  destruct (JS.trimEnd t); rewrite ?H; eauto.
Qed.

(** The compact fallback of the parser is dead code: where the root token is
    empty, the second regular expression does not match either. *)
Lemma noteMatch_dead (key : string) :
  rootToken key = EmptyString -> Regex.noteMatch (JS.trim key) = None.
Proof.
  unfold rootToken, Regex.removeAll.
  destruct (JS.trim key) as [| c t]; [done |].
  intros H. unfold Regex.noteMatch.
  destruct (Regex.isNoteLetter c) eqn:E; [| done]. exfalso.
  apply isNoteLetter_plain in E as [Em Es].
  cbn [Regex.removeAllFrom] in H. rewrite (matchAlt_not_m c t Em) in H.
  destruct (trim_keeps_first c (Regex.removeAllFrom Regex.modeWords 0 t) Es) as [t' E].
  rewrite E in H. discriminate H.
Qed.

(** [parseKey] in closed form: the branch for compact keys never decides
    anything. *)
Lemma parseKey_closed_form (key : string) :
  parseKey key =
    if String.eqb (rootToken key) EmptyString then None
    else Some {| root := capitalize (rootToken key); isMinor := hasM key |}.
Proof.
  unfold parseKey. fold (rootToken key).
  rewrite minorIndicators_m, hasM_trim.
  destruct (String.eqb (rootToken key) EmptyString) eqn:E; [| done].
  apply String.eqb_eq in E. by rewrite (noteMatch_dead key E).
Qed.

(** X1.  The parser rejects a key exactly when removing the mode words and the
    outer white space leaves nothing of it, and the regular expression for
    compact keys ("Am", "F#", "Bbm") never matches where it is consulted: such
    keys are read by the general rule. *)
Theorem parseKey_null_iff (key : string) :
  (parseKey key = None <-> rootToken key = EmptyString) /\
  (rootToken key = EmptyString -> Regex.noteMatch (JS.trim key) = None).
Proof.
  split; [| apply noteMatch_dead].
  rewrite parseKey_closed_form.
  destruct (String.eqb_spec (rootToken key) EmptyString); split; done.
Qed.

(** X2.  Whenever the parser accepts a key, the key is Minor exactly when it
    holds the letter m or M somewhere. *)
Theorem parseKey_isMinor (key : string) (k : KeyInfo) :
  parseKey key = Some k -> isMinor k = hasM key.
Proof.
  rewrite parseKey_closed_form.
  destruct (String.eqb _ _); [discriminate |]. by intros [= <-].
Qed.

Lemma parseKey_isMinor_witness :
  parseKey "Cmaj" = Some {| root := "C"; isMinor := true |} /\
  isMinor {| root := "C"; isMinor := true |} = hasM "Cmaj".
Proof.
  split; [reflexivity |]. apply (parseKey_isMinor "Cmaj"). reflexivity.
Defined.

Lemma capitalize_shape (s : string) :
  s <> EmptyString ->
  capitalize s <> EmptyString /\ hasM (capitalize s) = hasM s /\
  startsLower (capitalize s) = false.
Proof.
  destruct s as [| c t]; [done |]. intros _. unfold capitalize.
  cbn [JS.charAt0 JS.slice1 JS.toUpperCase].
  change (String (JS.upperChar c) EmptyString +:+ t) with (String (JS.upperChar c) t).
  cbn [hasM startsLower].
  split; [done |]. split; [by rewrite upperChar_m | apply upperChar_not_lower].
Qed.

(** X3.  A root returned by the parser is never empty, holds no m or M and
    does not start with a lower-case letter. *)
Theorem parseKey_root_shape (key : string) (k : KeyInfo) :
  parseKey key = Some k ->
  root k <> EmptyString /\ hasM (root k) = false /\ startsLower (root k) = false.
Proof.
  rewrite parseKey_closed_form.
  destruct (String.eqb _ _) eqn:E; [discriminate |]. intros [= <-].
  apply String.eqb_neq in E. cbn [root].
  destruct (capitalize_shape _ E) as (H1 & H2 & H3).
  split; [done |]. split; [| done]. rewrite H2. apply rootToken_no_m.
Qed.

Lemma parseKey_root_shape_witness :
  parseKey "em minor" = Some {| root := "E"; isMinor := true |} /\
  "E" <> EmptyString /\ hasM "E" = false /\ startsLower "E" = false.
Proof.
  split; [reflexivity |].
  apply (parseKey_root_shape "em minor" {| root := "E"; isMinor := true |}).
  reflexivity.
Defined.

Lemma trimEnd_idempotent (s : string) : JS.trimEnd (JS.trimEnd s) = JS.trimEnd s.
Proof.
  induction s as [| c t IH]; [done |]. cbn [JS.trimEnd].
  destruct (JS.trimEnd t) as [| d t'] eqn:E.
  - destruct (JS.isSpace c) eqn:Hc; [done |]. cbn [JS.trimEnd]. by rewrite Hc.
  - cbn [JS.trimEnd]. cbn [JS.trimEnd] in IH.
    destruct (JS.trimEnd t') as [| d' t''] eqn:E'.
    + destruct (JS.isSpace d); by rewrite IH.
    + by rewrite IH.
Qed.

Lemma trimStart_fixed (s : string) :
  startsWithSpace s = false -> JS.trimStart s = s.
Proof. destruct s as [| c t]; [done |]. cbn. by intros ->. Qed.

Lemma trimStart_clean (s : string) : startsWithSpace (JS.trimStart s) = false.
Proof.
  induction s as [| c t IH]; [done |]. cbn [JS.trimStart].
  destruct (JS.isSpace c) eqn:E; [done |]. cbn. exact E.
Qed.

Lemma trimEnd_clean (s : string) :
  startsWithSpace s = false -> startsWithSpace (JS.trimEnd s) = false.
Proof.
  destruct s as [| c t]; [done |]. cbn [startsWithSpace JS.trimEnd]. intros H.
  destruct (JS.trimEnd t); rewrite ?H; cbn; by rewrite ?H.
Qed.

Lemma trim_idempotent (s : string) : JS.trim (JS.trim s) = JS.trim s.
Proof.
  unfold JS.trim.
  rewrite (trimStart_fixed (JS.trimEnd (JS.trimStart s))).
  - apply trimEnd_idempotent.
  - apply trimEnd_clean, trimStart_clean.
Qed.

(** X4.  White space around the key does not matter to the parser. *)
Theorem parseKey_trim (key : string) : parseKey (JS.trim key) = parseKey key.
Proof.
  rewrite !parseKey_closed_form. unfold rootToken.
  by rewrite trim_idempotent, hasM_trim.
Qed.

Lemma lowerChar_inv (c a : ascii) :
  JS.lowerChar c = a -> c = a \/ (JS.isLower a = true /\ c = JS.upperChar a).
Proof. intros <-. each_ascii c; vm_compute; auto. Qed.

Lemma toLowerCase_cons_inv (s : string) (a : ascii) (t : string) :
  JS.toLowerCase s = String a t ->
  exists c s', s = String c s' /\
               (c = a \/ (JS.isLower a = true /\ c = JS.upperChar a)) /\
               JS.toLowerCase s' = t.
Proof.
  destruct s as [| c s']; cbn [JS.toLowerCase]; [discriminate |].
  intros [= Hc Ht]. exists c, s'. split; [done |]. split; [| done].
  by apply lowerChar_inv.
Qed.

Lemma toLowerCase_nil_inv (s : string) :
  JS.toLowerCase s = EmptyString -> s = EmptyString.
Proof. by destruct s. Qed.

(** Every way of writing a lower-case word in mixed case, one goal each. *)
Ltac each_casing H :=
  repeat match type of H with
    | JS.toLowerCase _ = String _ _ =>
        let Hc := fresh "Hc" in
        let Hl := fresh "Hl" in
        apply toLowerCase_cons_inv in H as (? & ? & -> & Hc & H);
        destruct Hc as [-> | [Hl ->]];
        [| vm_compute in Hl; first [discriminate Hl | clear Hl]]
    | JS.toLowerCase _ = EmptyString => apply toLowerCase_nil_inv in H as ->
    end.

(** X5.  Every root of the pitch table is read back from its documented
    spellings: alone it gives the Major key on that root; followed by m, by
    min or by the word minor, with or without a space and with the marker in
    any mix of upper and lower case, it gives the Minor key on that root. *)
Theorem parseKey_spellings (X suffix : string) :
  is_Some (NOTE_TO_MIDI !! X) -> JS.toLowerCase suffix ∈ minorSuffixes ->
  parseKey X = Some {| root := X; isMinor := false |} /\
  parseKey (X +:+ suffix) = Some {| root := X; isMinor := true |}.
Proof.
  intros [m H] Hs. split; [each_root H; reflexivity |].
  unfold minorSuffixes in Hs.
  repeat (apply elem_of_cons in Hs as [Hs | Hs];
          [each_casing Hs; each_root H; vm_compute; reflexivity |]).
  by apply elem_of_nil in Hs.
Qed.

Lemma parseKey_spellings_witness :
  is_Some (NOTE_TO_MIDI !! "Bb") /\ JS.toLowerCase " MiNor" ∈ minorSuffixes /\
  parseKey "Bb" = Some {| root := "Bb"; isMinor := false |} /\
  parseKey ("Bb" +:+ " MiNor") = Some {| root := "Bb"; isMinor := true |}.
Proof.
  assert (is_Some (NOTE_TO_MIDI !! "Bb")) as H by (exists 70; reflexivity).
  assert (JS.toLowerCase " MiNor" ∈ minorSuffixes) as Hs
    by (unfold minorSuffixes; repeat constructor).
  split; [exact H |]. split; [exact Hs |].
  exact (parseKey_spellings "Bb" " MiNor" H Hs).
Defined.

(** The first letter of the root may be typed in lower case. *)
Lemma parseKey_lower_case (X : string) :
  is_Some (NOTE_TO_MIDI !! X) ->
  parseKey (JS.toLowerCase (JS.charAt0 X) +:+ JS.slice1 X) =
    Some {| root := X; isMinor := false |}.
Proof. intros [m H]. each_root H; reflexivity. Qed.

(** * Further properties of the pitch table and the scale engine *)

Lemma midiToNote_entry (k : Z) (name : string) :
  midiToNote !! k = Some name ->
  (k, name) ∈ [(0, "C"); (1, "C#"); (2, "D"); (3, "D#"); (4, "E"); (5, "F");
               (6, "F#"); (7, "G"); (8, "G#"); (9, "A"); (10, "A#"); (11, "B")].
Proof. apply elem_of_list_to_map_2. Qed.

Lemma midiToNote_total (k : Z) :
  0 <= k < 12 -> exists name, midiToNote !! k = Some name.
Proof.
  intros H.
  assert (k = 0 \/ k = 1 \/ k = 2 \/ k = 3 \/ k = 4 \/ k = 5 \/ k = 6 \/ k = 7 \/
          k = 8 \/ k = 9 \/ k = 10 \/ k = 11) as Hc by lia.
  destruct Hc as [-> | [-> | [-> | [-> | [-> | [-> | [-> | [-> | [-> | [-> | [-> | ->]]]]]]]]]]];
    vm_compute; eauto.
Qed.

(** The display of a MIDI number from 0 up: the sharp-spelled name of its
    pitch class, then its octave. *)
Lemma noteOfMidi_nonneg (r : Z) :
  0 <= r ->
  exists name, midiToNote !! (r mod 12) = Some name /\
               noteOfMidi r = Note (name +:+ JS.ofInt (r / 12 - 1)).
Proof.
  intros Hr. destruct (midiToNote_total (r mod 12)) as [name Hn].
  { Z.to_euclidean_division_equations; lia. }
  exists name. split; [done |]. unfold noteOfMidi.
  replace (Z.rem r 12) with (r mod 12) by (Z.to_euclidean_division_equations; lia).
  by rewrite Hn.
Qed.

(** X6.  Encoding a table name at a safe octave from -1 up and displaying
    the number gives the sharp-spelled name of the same pitch class at that
    very octave; a name that is sharp-spelled already comes back unchanged. *)
Theorem noteToMidi_display (name : string) (base octave : Z) :
  NOTE_TO_MIDI !! name = Some base -> -1 <= octave -> safeOctave octave ->
  exists r sharp,
    noteToMidi (Some name) octave = Ok (Some r) /\
    midiToNote !! (base - 60) = Some sharp /\
    noteOfMidi r = Note (sharp +:+ JS.ofInt octave) /\
    (forall k, midiToNote !! k = Some name -> sharp = name).
Proof.
  intros Hb Hoct _. pose proof (NOTE_TO_MIDI_range _ _ Hb) as Hr.
  destruct (noteOfMidi_nonneg (base + (octave - 4) * 12)) as (sharp & Hs & Hd); [lia |].
  exists (base + (octave - 4) * 12), sharp.
  replace ((base + (octave - 4) * 12) mod 12) with (base - 60) in Hs
    by (Z.to_euclidean_division_equations; lia).
  replace ((base + (octave - 4) * 12) / 12 - 1) with octave in Hd
    by (Z.to_euclidean_division_equations; lia).
  split.
  { unfold noteToMidi. change (propertyKey (Some name)) with name.
    apply get_NOTE_TO_MIDI_Own in Hb. by rewrite Hb. }
  split; [done |]. split; [done |].
  intros k Hk. clear Hd Hoct Hr. apply midiToNote_entry in Hk.
  each_elem Hk; vm_compute in Hb; injection Hb as <-; vm_compute in Hs; congruence.
Qed.

Lemma noteToMidi_display_witness :
  NOTE_TO_MIDI !! "Bb" = Some 70 /\ -1 <= 3 /\ safeOctave 3 /\
  exists r sharp,
    noteToMidi (Some "Bb") 3 = Ok (Some r) /\
    midiToNote !! (70 - 60) = Some sharp /\
    noteOfMidi r = Note (sharp +:+ JS.ofInt 3) /\
    (forall k, midiToNote !! k = Some "Bb" -> sharp = "Bb").
Proof.
  assert (safeOctave 3) as Hs by (unfold safeOctave; lia).
  split; [reflexivity |]. split; [lia |]. split; [exact Hs |].
  apply (noteToMidi_display "Bb" 70 3); [reflexivity | lia | exact Hs].
Defined.

(** X7.  The first degree of a key is its root, and so is every degree a
    multiple of seven away from it that is a safe integer, in both modes. *)
Theorem getScaleDegreeNote_tonic (root : string) (isMinor : bool) (k : Z) :
  is_Some (NOTE_TO_MIDI !! root) -> safeInteger (1 + 7 * k) ->
  getScaleDegreeNote root (1 + 7 * k) isMinor = Ok (Some root).
Proof.
  intros [m H] Hs.
  rewrite (getScaleDegreeNote_index root (1 + 7 * k) 1 isMinor).
  - each_root H; destruct isMinor; by vm_compute.
  - rewrite (degreeIndex_mod _ Hs), (degreeIndex_1_7 1) by lia.
    Z.to_euclidean_division_equations; lia.
Qed.

Lemma getScaleDegreeNote_tonic_witness :
  is_Some (NOTE_TO_MIDI !! "G#") /\ safeInteger (1 + 7 * -2) /\
  getScaleDegreeNote "G#" (1 + 7 * -2) true = Ok (Some "G#").
Proof.
  assert (is_Some (NOTE_TO_MIDI !! "G#")) as H by (exists 68; reflexivity).
  assert (safeInteger (1 + 7 * -2)) as Hs
    by (unfold safeInteger, Double.MAX_SAFE_INTEGER; lia).
  split; [exact H |]. split; [exact Hs |].
  exact (getScaleDegreeNote_tonic "G#" true (-2) H Hs).
Defined.

(** X8.  On a root that has a row in the spelling table, the degree names do
    not depend on the mode: a minor key is spelled like the major key on the
    same root. *)
Theorem getScaleDegreeNote_mode_blind (root : string) (degree : Z) :
  is_Some (keyPrefs !! root) ->
  getScaleDegreeNote root degree true = getScaleDegreeNote root degree false.
Proof.
  intros [row H]. unfold getScaleDegreeNote.
  pose proof (degreeIndex_range degree) as Hi.
  generalize dependent (degreeIndex degree). intros i Hi.
  apply keyPrefs_entry in H. unfold keyPrefs_entries in H.
  each_index i Hi; each_elem H; by vm_compute.
Qed.

Lemma getScaleDegreeNote_mode_blind_witness :
  is_Some (keyPrefs !! "A") /\
  getScaleDegreeNote "A" 3 true = getScaleDegreeNote "A" 3 false.
Proof.
  assert (is_Some (keyPrefs !! "A")) as H by (eexists; reflexivity).
  split; [exact H | exact (getScaleDegreeNote_mode_blind "A" 3 H)].
Defined.

(** X9.  On the roots of the pitch table that have no row in the spelling
    table (C#, D#, G#, A#) the round trip through the pitch table holds for
    every integer degree in both modes. *)
Theorem getScaleDegreeNote_roundTrip_unspelled
    (root : string) (degree : Z) (isMinor : bool) :
  is_Some (NOTE_TO_MIDI !! root) -> keyPrefs !! root = None ->
  roundTrip root degree isMinor.
Proof.
  intros [m H] Hk. unfold roundTrip, getScaleDegreeNote.
  pose proof (degreeIndex_range degree) as Hi.
  generalize dependent (degreeIndex degree). intros i Hi.
  each_root H; vm_compute in Hk; try discriminate Hk; clear Hk;
    each_index i Hi; destruct isMinor;
    do 4 eexists; (split; [by vm_compute |]); (split; [by vm_compute |]);
    (split; [by vm_compute |]); (split; [by vm_compute |]); by vm_compute.
Qed.

Lemma getScaleDegreeNote_roundTrip_unspelled_witness :
  is_Some (NOTE_TO_MIDI !! "C#") /\ keyPrefs !! "C#" = None /\
  roundTrip "C#" 10 true.
Proof.
  assert (is_Some (NOTE_TO_MIDI !! "C#")) as H by (exists 61; reflexivity).
  split; [exact H |]. split; [reflexivity |].
  exact (getScaleDegreeNote_roundTrip_unspelled "C#" 10 true H eq_refl).
Defined.

Lemma getScaleDegreeNote_roundTrip_major_witness :
  is_Some (NOTE_TO_MIDI !! "F#") /\ 1 <= 5 <= 7 /\
  ("F#", 5) <> ("Gb", 4) /\ ("F#", 5) <> ("F#", 7) /\ roundTrip "F#" 5 false.
Proof.
  assert (is_Some (NOTE_TO_MIDI !! "F#")) as H by (exists 66; reflexivity).
  assert (1 <= 5 <= 7) as Hd by lia.
  assert (("F#", 5) <> ("Gb", 4)) as H1 by discriminate.
  assert (("F#", 5) <> ("F#", 7)) as H2 by discriminate.
  split; [exact H |]. split; [exact Hd |]. split; [exact H1 |]. split; [exact H2 |].
  exact (getScaleDegreeNote_roundTrip_major "F#" 5 H Hd H1 H2).
Defined.

(** * Further properties of the chord builder *)

(** The two ways [getChordNotes] ends once the chord root is known. *)
Lemma getChordNotes_known_root
    (root : string) (degree : Z) (isMinor : bool) (octave : Z) (name : string) (base : Z) :
  getScaleDegreeNote root degree isMinor = Ok (Some name) ->
  NOTE_TO_MIDI !! name = Some base ->
  getChordNotes root degree isMinor octave =
    Ok (map (fun interval => noteOfMidi (base + (octave - 4) * 12 + interval))
            (triadOf isMinor degree)).
Proof.
  intros Hs Hb. unfold getChordNotes. rewrite Hs. cbn [mbind result_bind].
  unfold noteToMidi. change (propertyKey (Some name)) with name.
  apply get_NOTE_TO_MIDI_Own in Hb. by rewrite Hb.
Qed.

Lemma getChordNotes_unknown_root
    (root : string) (degree : Z) (isMinor : bool) (octave : Z) (name : string) :
  getScaleDegreeNote root degree isMinor = Ok (Some name) ->
  get NOTE_TO_MIDI name = Undefined ->
  getChordNotes root degree isMinor octave = Err (InvalidNoteName name).
Proof.
  intros Hs Hu. unfold getChordNotes. rewrite Hs. cbn [mbind result_bind].
  unfold noteToMidi. change (propertyKey (Some name)) with name. by rewrite Hu.
Qed.

(** X11.  On a root of the pitch table, for every degree that is a safe
    integer, every mode and octave, [getChordNotes] throws exactly on the
    fourth degree of Gb and the seventh degree of F# (and the degrees a
    multiple of seven away), with "Invalid note name: Cb" and "Invalid note
    name: E#"; everywhere else it returns its notes. *)
Theorem getChordNotes_throws_iff
    (root : string) (degree : Z) (isMinor : bool) (octave : Z) :
  is_Some (NOTE_TO_MIDI !! root) -> safeInteger degree ->
  match misspelled root degree with
  | Some name => getChordNotes root degree isMinor octave = Err (InvalidNoteName name)
  | None => exists notes, getChordNotes root degree isMinor octave = Ok notes
  end.
Proof.
  intros [m H] Hsafe.
  assert (match misspelled root degree with
          | Some name =>
              getScaleDegreeNote root degree isMinor = Ok (Some name) /\
              get NOTE_TO_MIDI name = Undefined
          | None =>
              exists name base,
                getScaleDegreeNote root degree isMinor = Ok (Some name) /\
                NOTE_TO_MIDI !! name = Some base
          end) as Hname.
  { unfold misspelled, getScaleDegreeNote.
    replace (degree mod 7) with ((degreeIndex degree + 1) mod 7)
      by (rewrite (degreeIndex_mod _ Hsafe); Z.to_euclidean_division_equations; lia).
    clear Hsafe. pose proof (degreeIndex_range degree) as Hi.
    generalize dependent (degreeIndex degree). intros i Hi.
    each_index i Hi; each_root H; destruct isMinor;
      match goal with
      | |- match ?x with _ => _ end =>
          let v := eval vm_compute in x in change x with v; cbv iota
      end;
      first [ split; by vm_compute
            | match goal with
              | |- exists name base, ?g = _ /\ _ =>
                  let v := eval vm_compute in g in
                  match v with
                  | Ok (Some ?n) =>
                      let b := eval vm_compute in (NOTE_TO_MIDI !! n) in
                      match b with
                      | Some ?z => exists n, z; split; by vm_compute
                      end
                  end
              end ]. }
  destruct (misspelled root degree) as [name |].
  - destruct Hname as [Hs Hu]. by apply getChordNotes_unknown_root.
  - destruct Hname as (name & base & Hs & Hb).
    eexists. by apply getChordNotes_known_root with (name := name) (base := base).
Qed.

Lemma getChordNotes_throws_iff_witness :
  is_Some (NOTE_TO_MIDI !! "F#") /\ safeInteger 14 /\
  getChordNotes "F#" 14 false 4 = Err (InvalidNoteName "E#").
Proof.
  assert (is_Some (NOTE_TO_MIDI !! "F#")) as H by (exists 66; reflexivity).
  assert (safeInteger 14) as Hs by (unfold safeInteger, Double.MAX_SAFE_INTEGER; lia).
  split; [exact H |]. split; [exact Hs |].
  exact (getChordNotes_throws_iff "F#" 14 false 4 H Hs).
Defined.

(** X12.  Among the safe octaves the octave only transposes: if
    [getChordNotes] returns at one of them, it returns at every other, with
    each pitch moved by twelve semitones per octave. *)
Theorem getChordNotes_transpose
    (root : string) (degree : Z) (isMinor : bool) (octave : Z) (notes : list note) :
  getChordNotes root degree isMinor octave = Ok notes -> safeOctave octave ->
  exists pitches,
    notes = map noteOfMidi pitches /\
    forall k, safeOctave (octave + k) ->
              getChordNotes root degree isMinor (octave + k) =
              Ok (map noteOfMidi (map (fun p => p + 12 * k) pitches)).
Proof.
  intros H _. apply getChordNotes_Ok in H as (chordRoot & base & Hs & Hb & ->).
  exists (map (fun interval => base + (octave - 4) * 12 + interval)
              (triadOf isMinor degree)).
  split; [by rewrite map_map |].
  intros k _. rewrite (getChordNotes_known_root _ _ _ _ _ _ Hs Hb).
  rewrite !map_map. f_equal. apply map_ext. intros i. f_equal. lia.
Qed.

Lemma getChordNotes_transpose_witness :
  getChordNotes "C" 5 false 4 = Ok (map Note ["G4"; "B4"; "D5"]) /\ safeOctave 4 /\
  exists pitches,
    map Note ["G4"; "B4"; "D5"] = map noteOfMidi pitches /\
    forall k, safeOctave (4 + k) ->
              getChordNotes "C" 5 false (4 + k) =
              Ok (map noteOfMidi (map (fun p => p + 12 * k) pitches)).
Proof.
  assert (safeOctave 4) as Hs by (unfold safeOctave; lia).
  split; [reflexivity |]. split; [exact Hs |].
  apply (getChordNotes_transpose "C" 5 false 4); [reflexivity | exact Hs].
Defined.

(** X13.  The chord quality looks at the degree itself, not at its place in
    the scale: for a safe-integer degree outside 1..7, at a safe octave,
    every chord is a major triad, in Minor keys too, although the chord root
    wraps around. *)
Theorem getChordNotes_outside_major
    (root : string) (degree : Z) (isMinor : bool) (octave : Z) (notes : list note) :
  getChordNotes root degree isMinor octave = Ok notes ->
  degree < 1 \/ degree > 7 -> safeInteger degree -> safeOctave octave ->
  exists chordRoot r,
    getScaleDegreeNote root (degree mod 7) isMinor = Ok (Some chordRoot) /\
    noteToMidi (Some chordRoot) octave = Ok (Some r) /\
    notes = map noteOfMidi [r; r + 4; r + 7].
Proof.
  intros H Hd Hsafe _. apply getChordNotes_Ok in H as (chordRoot & base & Hs & Hb & ->).
  exists chordRoot, (base + (octave - 4) * 12). split; [| split].
  - rewrite <- Hs. apply getScaleDegreeNote_index.
    rewrite (degreeIndex_mod degree Hsafe), degreeIndex_mod.
    + Z.to_euclidean_division_equations; lia.
    + unfold safeInteger, Double.MAX_SAFE_INTEGER.
      Z.to_euclidean_division_equations; lia.
  - unfold noteToMidi. change (propertyKey (Some chordRoot)) with chordRoot.
    apply get_NOTE_TO_MIDI_Own in Hb. by rewrite Hb.
  - destruct (triadOf_rule isMinor degree) as [_ ->].
    + cbn [map]. by rewrite Z.add_0_r.
    + unfold minorTriadDegree. lia.
Qed.

Lemma getChordNotes_outside_major_witness :
  getChordNotes "A" 8 true 4 = Ok (map Note ["A4"; "C#5"; "E5"]) /\
  (8 < 1 \/ 8 > 7) /\ safeInteger 8 /\ safeOctave 4 /\
  exists chordRoot r,
    getScaleDegreeNote "A" (8 mod 7) true = Ok (Some chordRoot) /\
    noteToMidi (Some chordRoot) 4 = Ok (Some r) /\
    map Note ["A4"; "C#5"; "E5"] = map noteOfMidi [r; r + 4; r + 7].
Proof.
  assert (8 < 1 \/ 8 > 7) as Hd by lia.
  assert (safeInteger 8) as Hs by (unfold safeInteger, Double.MAX_SAFE_INTEGER; lia).
  assert (safeOctave 4) as Ho by (unfold safeOctave; lia).
  split; [reflexivity |]. split; [exact Hd |]. split; [exact Hs |]. split; [exact Ho |].
  apply (getChordNotes_outside_major "A" 8 true 4);
    [reflexivity | exact Hd | exact Hs | exact Ho].
Defined.

(** X14.  At a safe octave from -1 up [getChordNotes] returns exactly three
    notes, each a sharp-spelled name of the chromatic table followed by the
    requested octave or the next one: never [NaN], and never a flat, whatever
    the spelling table prefers for the key. *)
Theorem getChordNotes_sharp_names
    (root : string) (degree : Z) (isMinor : bool) (octave : Z) (notes : list note) :
  getChordNotes root degree isMinor octave = Ok notes ->
  -1 <= octave -> safeOctave octave ->
  length notes = 3%nat /\
  Forall (fun n => exists k name o,
              midiToNote !! k = Some name /\ (o = octave \/ o = octave + 1) /\
              n = Note (name +:+ JS.ofInt o)) notes.
Proof.
  intros H Hoct _. apply getChordNotes_Ok in H as (chordRoot & base & _ & Hb & ->).
  apply NOTE_TO_MIDI_range in Hb.
  assert (length (triadOf isMinor degree) = 3%nat /\
          Forall (fun i => 0 <= i <= 7) (triadOf isMinor degree)) as [Hlen Hi].
  { unfold triadOf. destruct (if isMinor then _ else _);
      (split; [done | repeat constructor; lia]). }
  split; [by rewrite length_map |].
  clear Hlen. induction Hi as [| i l Hi _ IH]; cbn [map]; constructor; [| exact IH].
  destruct (noteOfMidi_nonneg (base + (octave - 4) * 12 + i)) as (name & Hn & Hd); [lia |].
  exists ((base + (octave - 4) * 12 + i) mod 12), name,
         ((base + (octave - 4) * 12 + i) / 12 - 1).
  split; [done |]. split; [| done]. Z.to_euclidean_division_equations; lia.
Qed.

Lemma getChordNotes_sharp_names_witness :
  getChordNotes "F" 4 false 4 = Ok (map Note ["A#4"; "D5"; "F5"]) /\ -1 <= 4 /\
  safeOctave 4 /\
  length (map Note ["A#4"; "D5"; "F5"]) = 3%nat /\
  Forall (fun n => exists k name o,
              midiToNote !! k = Some name /\ (o = 4 \/ o = 4 + 1) /\
              n = Note (name +:+ JS.ofInt o)) (map Note ["A#4"; "D5"; "F5"]).
Proof.
  assert (-1 <= 4) as Ho by lia.
  assert (safeOctave 4) as Hs by (unfold safeOctave; lia).
  split; [reflexivity |]. split; [exact Ho |]. split; [exact Hs |].
  apply (getChordNotes_sharp_names "F" 4 false 4); [reflexivity | exact Ho | exact Hs].
Defined.

(** * Further properties of the progression selector and the entry point *)

(** X15.  For a chord count from 2 to 6 the selector returns exactly that many
    degrees; the first is the tonic and all are among 1, 4, 5 and 6. *)
Theorem getProgressionDegrees_shape (n : Z) :
  2 <= n <= 6 ->
  exists degrees,
    getProgressionDegrees n = Ok (Some degrees) /\
    Z.of_nat (length degrees) = n /\
    head degrees = Some 1 /\
    Forall (fun d => d = 1 \/ d = 4 \/ d = 5 \/ d = 6) degrees.
Proof.
  intros Hn.
  assert (n = 2 \/ n = 3 \/ n = 4 \/ n = 5 \/ n = 6) as Hc by lia.
  destruct Hc as [-> | [-> | [-> | [-> | ->]]]];
    match goal with
    | |- exists degrees, getProgressionDegrees ?n = _ /\ _ =>
        let v := eval vm_compute in (getProgressionDegrees n) in
        match v with Ok (Some ?d) => exists d end
    end;
    (split; [by vm_compute |]); (split; [reflexivity |]); (split; [reflexivity |]);
    repeat (constructor; [lia |]); constructor.
Qed.

Lemma getProgressionDegrees_shape_witness :
  2 <= 5 <= 6 /\
  exists degrees,
    getProgressionDegrees 5 = Ok (Some degrees) /\
    Z.of_nat (length degrees) = 5 /\
    head degrees = Some 1 /\
    Forall (fun d => d = 1 \/ d = 4 \/ d = 5 \/ d = 6) degrees.
Proof.
  assert (2 <= 5 <= 6) as H by lia.
  split; [exact H | exact (getProgressionDegrees_shape 5 H)].
Defined.

Lemma getProgressionDegrees_length (n : Z) (degrees : list Z) :
  getProgressionDegrees n = Ok (Some degrees) -> Z.of_nat (length degrees) = n.
Proof.
  unfold getProgressionDegrees. destruct (_ || _) eqn:Hg; [discriminate |].
  apply orb_false_iff in Hg as [Hlo Hhi].
  apply Z.ltb_ge in Hlo. rewrite Z.gtb_ltb in Hhi. apply Z.ltb_ge in Hhi.
  assert (n = 2 \/ n = 3 \/ n = 4 \/ n = 5 \/ n = 6) as Hc by lia.
  destruct Hc as [-> | [-> | [-> | [-> | ->]]]]; intros H; vm_compute in H;
    by injection H as <-.
Qed.

(** The entry point once the key is parsed and the root and the count have
    passed their checks. *)
Lemma createChordProgression_checked
    (key : string) (k : KeyInfo) (numChords : Z) (degrees : list Z) :
  parseKey key = Some k -> truthy (get NOTE_TO_MIDI (root k)) = true ->
  getProgressionDegrees numChords = Ok (Some degrees) ->
  createChordProgression key numChords =
    forEach (fun degree =>
               chordNotes ← getChordNotes (root k) degree (isMinor k) 4;
               Ok {| pitch := chordNotes; duration := "1"; velocity := 100 |})
            degrees.
Proof.
  intros Hk Ht Hd. unfold createChordProgression. rewrite Hk. cbv zeta.
  rewrite Ht. cbn [negb].
  assert ((numChords <? 2) || (numChords >? 6) = false) as ->.
  { unfold getProgressionDegrees in Hd. by destruct (_ || _). }
  by rewrite Hd.
Qed.

(** What a successful run went through. *)
Lemma createChordProgression_Ok
    (key : string) (numChords : Z) (events : list NoteEvent) :
  createChordProgression key numChords = Ok events ->
  exists k degrees,
    parseKey key = Some k /\ 2 <= numChords <= 6 /\
    getProgressionDegrees numChords = Ok (Some degrees) /\
    Forall2 (fun degree e =>
               exists notes, getChordNotes (root k) degree (isMinor k) 4 = Ok notes /\
                             e = {| pitch := notes; duration := "1"; velocity := 100 |})
            degrees events.
Proof.
  unfold createChordProgression.
  destruct (parseKey key) as [k |]; [| discriminate]. cbv zeta.
  destruct (negb _); [discriminate |].
  destruct (_ || _) eqn:Hg; [discriminate |].
  apply orb_false_iff in Hg as [Hlo Hhi].
  apply Z.ltb_ge in Hlo. rewrite Z.gtb_ltb in Hhi. apply Z.ltb_ge in Hhi.
  destruct (getProgressionDegrees numChords) as [[degrees |] | e];
    cbn [mbind result_bind]; try discriminate.
  intros H. apply forEach_Ok in H. exists k, degrees.
  split; [done |]. split; [lia |]. split; [done |].
  induction H as [| degree e ds es Hd _ IH]; constructor; [| exact IH].
  destruct (getChordNotes (root k) degree (isMinor k) 4) as [notes | err];
    [| discriminate].
  cbn [mbind result_bind] in Hd. injection Hd as <-. by exists notes.
Qed.

(** X16.  A successful run returns exactly [numChords] note events, each of
    three notes, a whole note long, at velocity 100; and it succeeds only for
    a count from 2 to 6. *)
Theorem createChordProgression_shape
    (key : string) (numChords : Z) (events : list NoteEvent) :
  createChordProgression key numChords = Ok events ->
  2 <= numChords <= 6 /\ Z.of_nat (length events) = numChords /\
  Forall wholeTriad events.
Proof.
  intros H. apply createChordProgression_Ok in H as (k & degrees & _ & Hn & Hd & H).
  split; [done |]. split.
  - apply getProgressionDegrees_length in Hd. apply Forall2_length in H. lia.
  - clear Hd. induction H as [| degree e ds es (notes & Hc & ->) _ IH];
      constructor; [| exact IH].
    apply getChordNotes_Ok in Hc as (chordRoot & base & _ & _ & ->).
    unfold wholeTriad. cbn [pitch duration velocity]. split; [| done].
    rewrite length_map. unfold triadOf. by destruct (if isMinor k then _ else _).
Qed.

Lemma createChordProgression_shape_witness :
  createChordProgression "D" 6 =
    Ok [chord ["D4"; "F#4"; "A4"]; chord ["B4"; "D5"; "F#5"]; chord ["G4"; "B4"; "D5"];
        chord ["A4"; "C#5"; "E5"]; chord ["D4"; "F#4"; "A4"]; chord ["G4"; "B4"; "D5"]] /\
  2 <= 6 <= 6 /\
  Z.of_nat (length
    [chord ["D4"; "F#4"; "A4"]; chord ["B4"; "D5"; "F#5"]; chord ["G4"; "B4"; "D5"];
     chord ["A4"; "C#5"; "E5"]; chord ["D4"; "F#4"; "A4"]; chord ["G4"; "B4"; "D5"]]) = 6 /\
  Forall wholeTriad
    [chord ["D4"; "F#4"; "A4"]; chord ["B4"; "D5"; "F#5"]; chord ["G4"; "B4"; "D5"];
     chord ["A4"; "C#5"; "E5"]; chord ["D4"; "F#4"; "A4"]; chord ["G4"; "B4"; "D5"]].
Proof.
  split; [reflexivity |]. apply (createChordProgression_shape "D" 6). reflexivity.
Defined.

(** X17.  Where a degree comes twice in the template the same chord comes
    twice: a progression of four chords ends on the chord it starts with, and
    so does one of five. *)
Theorem createChordProgression_returns_home
    (key : string) (numChords : Z) (events : list NoteEvent) :
  createChordProgression key numChords = Ok events ->
  numChords = 4 \/ numChords = 5 ->
  exists e, head events = Some e /\ last events = Some e.
Proof.
  intros H Hn. apply createChordProgression_Ok in H as (k & degrees & _ & _ & Hd & H).
  destruct Hn as [-> | ->]; vm_compute in Hd; injection Hd as <-;
    repeat match goal with
           | H : Forall2 _ (_ :: _) _ |- _ =>
               inversion H as [| ? ? ? ? (? & ? & ?) ?]; clear H; subst
           | H : Forall2 _ [] _ |- _ => inversion H; clear H; subst
           end;
    eexists; (split; [reflexivity |]); simpl; congruence.
Qed.

Lemma createChordProgression_returns_home_witness :
  createChordProgression "A minor" 5 =
    Ok [chord ["A4"; "C5"; "E5"]; chord ["F#4"; "A#4"; "C#5"]; chord ["D4"; "F4"; "A4"];
        chord ["E4"; "G4"; "B4"]; chord ["A4"; "C5"; "E5"]] /\
  (5 = 4 \/ 5 = 5) /\
  exists e,
    head [chord ["A4"; "C5"; "E5"]; chord ["F#4"; "A#4"; "C#5"]; chord ["D4"; "F4"; "A4"];
          chord ["E4"; "G4"; "B4"]; chord ["A4"; "C5"; "E5"]] = Some e /\
    last [chord ["A4"; "C5"; "E5"]; chord ["F#4"; "A#4"; "C#5"]; chord ["D4"; "F4"; "A4"];
          chord ["E4"; "G4"; "B4"]; chord ["A4"; "C5"; "E5"]] = Some e.
Proof.
  assert (5 = 4 \/ 5 = 5) as Hn by (right; reflexivity).
  split; [reflexivity |]. split; [exact Hn |].
  apply (createChordProgression_returns_home "A minor" 5); [reflexivity | exact Hn].
Defined.

Lemma truthy_table (root : string) (m : Z) :
  NOTE_TO_MIDI !! root = Some m -> truthy (get NOTE_TO_MIDI root) = true.
Proof.
  intros H. pose proof (NOTE_TO_MIDI_range _ _ H) as Hr.
  apply get_NOTE_TO_MIDI_Own in H. rewrite H. cbn [truthy].
  destruct (m =? 0) eqn:E; [apply Z.eqb_eq in E; lia | done].
Qed.

(** The runs on a root of the pitch table, count by count. *)
Lemma createChordProgression_table_root (key : string) (k : KeyInfo) (n : Z) :
  parseKey key = Some k -> is_Some (NOTE_TO_MIDI !! root k) -> 2 <= n <= 6 ->
  if String.eqb (root k) "Gb" && negb (n =? 2)
  then createChordProgression key n = Err (InvalidNoteName "Cb")
  else exists events, createChordProgression key n = Ok events.
Proof.
  intros Hk [m Hm] Hn. pose proof (truthy_table _ _ Hm) as Ht.
  destruct k as [r mi]. cbn [root] in *.
  assert (n = 2 \/ n = 3 \/ n = 4 \/ n = 5 \/ n = 6) as Hc by lia. clear Hn.
  destruct Hc as [-> | [-> | [-> | [-> | ->]]]];
    match goal with
    | |- context [createChordProgression key ?n] =>
        let v := eval vm_compute in (getProgressionDegrees n) in
        match v with
        | Ok (Some ?d) =>
            rewrite (createChordProgression_checked key _ n d Hk Ht
                       ltac:(vm_compute; reflexivity))
        end
    end;
    cbn [root isMinor]; clear Hk Ht; each_root Hm; destruct mi;
    match goal with
    | |- if ?c then _ else _ =>
        let b := eval vm_compute in c in change c with b; cbv iota
    end;
    first [ by vm_compute
          | match goal with
            | |- exists events, ?g = _ =>
                let v := eval vm_compute in g in
                match v with Ok ?es => exists es; by vm_compute end
            end ].
Qed.

(** X18.  On a root of the pitch table and a count from 2 to 6 the entry point
    returns a progression, in both modes, with one exception: on the root Gb
    every count but 2 runs into the fourth degree and throws "Invalid note
    name: Cb". *)
Theorem createChordProgression_succeeds (key : string) (k : KeyInfo) (n : Z) :
  parseKey key = Some k -> is_Some (NOTE_TO_MIDI !! root k) -> 2 <= n <= 6 ->
  (root k = "Gb" /\ n <> 2 -> createChordProgression key n = Err (InvalidNoteName "Cb")) /\
  (root k <> "Gb" \/ n = 2 -> exists events, createChordProgression key n = Ok events).
Proof.
  intros Hk Hm Hn. pose proof (createChordProgression_table_root key k n Hk Hm Hn) as H.
  destruct (String.eqb_spec (root k) "Gb") as [E | E];
    destruct (Z.eqb_spec n 2) as [E' | E']; cbn [andb negb] in H;
    (split; [intros [? ?] | intros [? | ?]]); done.
Qed.

Lemma createChordProgression_succeeds_witness :
  parseKey "F# minor" = Some {| root := "F#"; isMinor := true |} /\
  is_Some (NOTE_TO_MIDI !! "F#") /\ 2 <= 6 <= 6 /\
  ("F#" = "Gb" /\ 6 <> 2 ->
   createChordProgression "F# minor" 6 = Err (InvalidNoteName "Cb")) /\
  ("F#" <> "Gb" \/ 6 = 2 -> exists events, createChordProgression "F# minor" 6 = Ok events).
Proof.
  assert (is_Some (NOTE_TO_MIDI !! "F#")) as H by (exists 66; reflexivity).
  assert (2 <= 6 <= 6) as Hn by lia.
  split; [reflexivity |]. split; [exact H |]. split; [exact Hn |].
  exact (createChordProgression_succeeds "F# minor" {| root := "F#"; isMinor := true |} 6
           eq_refl H Hn).
Defined.

(** A root that the pitch table only inherits has no row of its own in the
    spelling table. *)
Lemma get_keyPrefs_inherited (root : string) :
  get NOTE_TO_MIDI root = Inherited -> get keyPrefs root = Inherited.
Proof.
  unfold get. destruct (NOTE_TO_MIDI !! root) eqn:E; [discriminate |].
  case_bool_decide; [| discriminate]. intros _.
  destruct (keyPrefs !! root) as [row |] eqn:K; [| done]. exfalso.
  apply keyPrefs_entry in K. unfold keyPrefs_entries in K.
  each_elem K; vm_compute in E; discriminate E.
Qed.

Lemma getChordNotes_inherited (root : string) (degree : Z) (isMinor : bool) (octave : Z) :
  get NOTE_TO_MIDI root = Inherited ->
  getChordNotes root degree isMinor octave = Err (InvalidNoteName "undefined").
Proof.
  intros H. unfold getChordNotes, getScaleDegreeNote.
  rewrite (get_keyPrefs_inherited root H), H. done.
Qed.

Lemma createChordProgression_inherited (key : string) (k : KeyInfo) (n : Z) :
  parseKey key = Some k -> get NOTE_TO_MIDI (root k) = Inherited -> 2 <= n <= 6 ->
  createChordProgression key n = Err (InvalidNoteName "undefined").
Proof.
  intros Hk Hi Hn.
  destruct (getProgressionDegrees_defined n Hn) as [degrees Hd].
  assert (exists rest, degrees = 1 :: rest) as [rest ->].
  { assert (n = 2 \/ n = 3 \/ n = 4 \/ n = 5 \/ n = 6) as Hc by lia.
    destruct Hc as [-> | [-> | [-> | [-> | ->]]]]; vm_compute in Hd;
      injection Hd as <-; eauto. }
  rewrite (createChordProgression_checked key k n (1 :: rest) Hk);
    [| by rewrite Hi | done].
  cbn [forEach]. by rewrite (getChordNotes_inherited _ _ _ _ Hi).
Qed.

(** The inherited names that start with a letter never come out of the
    parser as roots: put as keys, their capitalised rest is unknown to the
    pitch table and the entry point throws the root error. *)
Lemma createChordProgression_inherited_letters (name : string) (n : Z) :
  name ∈ Object_prototype -> name ∉ underscoreNames ->
  exists r, createChordProgression name n = Err (InvalidRootNote r).
Proof.
  intros Hin Hout. unfold Object_prototype in Hin.
  repeat (apply elem_of_cons in Hin as [-> | Hin];
          [first [ exfalso; apply Hout; unfold underscoreNames; by repeat constructor
                 | eexists; unfold createChordProgression;
                   match goal with
                   | |- context [parseKey ?key] =>
                       let v := eval vm_compute in (parseKey key) in
                       change (parseKey key) with v
                   end; cbv zeta; cbn [root];
                   match goal with
                   | |- context [get NOTE_TO_MIDI ?r] =>
                       change (get NOTE_TO_MIDI r) with (@Undefined Z)
                   end; reflexivity ] |]).
  by apply elem_of_nil in Hin.
Qed.

(** X19.  The root check lets through the five names every object inherits
    that start with an underscore ("__proto__", "__defineGetter__", ...):
    each of them is a key the parser returns as its own root, and a key with
    such a root passes as if the root were a note; the run then throws
    "Invalid note name: undefined" on its first chord. *)
Theorem createChordProgression_inherited_root (key : string) (k : KeyInfo) (n : Z) :
  parseKey key = Some k -> root k ∈ underscoreNames -> 2 <= n <= 6 ->
  parseKey (root k) = Some {| root := root k; isMinor := false |} /\
  truthy (get NOTE_TO_MIDI (root k)) = true /\
  createChordProgression key n = Err (InvalidNoteName "undefined").
Proof.
  intros Hk Hin Hn.
  assert (parseKey (root k) = Some {| root := root k; isMinor := false |} /\
          get NOTE_TO_MIDI (root k) = Inherited) as [Hp Hi].
  { destruct k as [r mi]. cbn [root] in *. clear Hk.
    unfold underscoreNames in Hin.
    repeat (apply elem_of_cons in Hin as [-> | Hin]; [by vm_compute |]).
    by apply elem_of_nil in Hin. }
  split; [exact Hp |]. split; [by rewrite Hi |].
  by apply (createChordProgression_inherited key k n Hk).
Qed.

Lemma createChordProgression_inherited_root_witness :
  parseKey " __lookupGetter__ " =
    Some {| root := "__lookupGetter__"; isMinor := false |} /\
  "__lookupGetter__" ∈ underscoreNames /\ 2 <= 4 <= 6 /\
  parseKey "__lookupGetter__" = Some {| root := "__lookupGetter__"; isMinor := false |} /\
  truthy (get NOTE_TO_MIDI "__lookupGetter__") = true /\
  createChordProgression " __lookupGetter__ " 4 = Err (InvalidNoteName "undefined").
Proof.
  assert ("__lookupGetter__" ∈ underscoreNames) as Hin
    by (unfold underscoreNames; repeat constructor).
  assert (2 <= 4 <= 6) as Hn by lia.
  split; [reflexivity |]. split; [exact Hin |]. split; [exact Hn |].
  exact (createChordProgression_inherited_root " __lookupGetter__ "
           {| root := "__lookupGetter__"; isMinor := false |} 4 eq_refl Hin Hn).
Defined.

Lemma createChordProgression_count (key : string) (k : KeyInfo) (n : Z) :
  parseKey key = Some k -> truthy (get NOTE_TO_MIDI (root k)) = true ->
  n < 2 \/ n > 6 ->
  createChordProgression key n = Err (InvalidChordCount n).
Proof.
  intros Hk Ht Hn. unfold createChordProgression. rewrite Hk. cbv zeta.
  rewrite Ht. cbn [negb].
  destruct Hn as [Hn | Hn].
  - apply Z.ltb_lt in Hn. by rewrite Hn.
  - apply Z.gt_lt, Z.ltb_lt in Hn. rewrite Z.gtb_ltb, Hn. by rewrite orb_true_r.
Qed.

(** X20.  Every way the entry point can fail on a chord count that is an
    integer: the key-format error on a key the parser rejects; the root error on a root the pitch table does not
    have; the chord-count error on a count outside 2..6; "Invalid note name:
    Cb" on the root Gb with three chords or more; "Invalid note name:
    undefined" on an inherited root.  With an integer count it throws
    nothing else. *)
Theorem createChordProgression_failures (key : string) (n : Z) (e : error) :
  createChordProgression key n = Err e ->
  (parseKey key = None /\ e = InvalidKeyFormat key) \/
  (exists k, parseKey key = Some k /\
     ((get NOTE_TO_MIDI (root k) = Undefined /\ e = InvalidRootNote (root k)) \/
      (get NOTE_TO_MIDI (root k) <> Undefined /\ (n < 2 \/ n > 6) /\
       e = InvalidChordCount n) \/
      (root k = "Gb" /\ 3 <= n <= 6 /\ e = InvalidNoteName "Cb") \/
      (get NOTE_TO_MIDI (root k) = Inherited /\ 2 <= n <= 6 /\
       e = InvalidNoteName "undefined"))).
Proof.
  intros H. destruct (parseKey key) as [k |] eqn:Hk.
  2:{ left. split; [done |]. unfold createChordProgression in H. rewrite Hk in H.
      by injection H as <-. }
  right. exists k. split; [done |].
  destruct (get NOTE_TO_MIDI (root k)) as [m | |] eqn:G.
  3:{ left. split; [done |]. unfold createChordProgression in H. rewrite Hk in H.
      cbv zeta in H. rewrite G in H. cbn [truthy negb] in H. by injection H as <-. }
  all: assert (truthy (get NOTE_TO_MIDI (root k)) = true) as Ht
         by (first [ apply get_NOTE_TO_MIDI_Own in G; by apply truthy_table in G
                   | by rewrite G ]).
  all: assert (n < 2 \/ n > 6 \/ 2 <= n <= 6) as [Hn | [Hn | Hn]] by lia.
  all: try (right; left;
            rewrite (createChordProgression_count key k n Hk Ht) in H by lia;
            injection H as <-; split; [done | split; [lia | done]]).
  - right. right. left. apply get_NOTE_TO_MIDI_Own in G.
    pose proof (createChordProgression_table_root key k n Hk (ex_intro _ m G) Hn) as Hr.
    destruct (String.eqb (root k) "Gb" && negb (n =? 2)) eqn:B.
    + rewrite Hr in H. injection H as <-.
      apply andb_true_iff in B as [B1 B2]. apply String.eqb_eq in B1.
      apply negb_true_iff, Z.eqb_neq in B2. split; [done |]. split; [lia | done].
    + destruct Hr as [evs Hr]. rewrite Hr in H. discriminate H.
  - right. right. right.
    rewrite (createChordProgression_inherited key k n Hk G Hn) in H.
    injection H as <-. done.
Qed.

Lemma createChordProgression_failures_witness :
  createChordProgression "Gb" 3 = Err (InvalidNoteName "Cb") /\
  ((parseKey "Gb" = None /\ InvalidNoteName "Cb" = InvalidKeyFormat "Gb") \/
   (exists k, parseKey "Gb" = Some k /\
      ((get NOTE_TO_MIDI (root k) = Undefined /\
        InvalidNoteName "Cb" = InvalidRootNote (root k)) \/
       (get NOTE_TO_MIDI (root k) <> Undefined /\ (3 < 2 \/ 3 > 6) /\
        InvalidNoteName "Cb" = InvalidChordCount 3) \/
       (root k = "Gb" /\ 3 <= 3 <= 6 /\ InvalidNoteName "Cb" = InvalidNoteName "Cb") \/
       (get NOTE_TO_MIDI (root k) = Inherited /\ 2 <= 3 <= 6 /\
        InvalidNoteName "Cb" = InvalidNoteName "undefined")))).
Proof.
  split; [reflexivity |].
  apply (createChordProgression_failures "Gb" 3 (InvalidNoteName "Cb")). reflexivity.
Defined.

Lemma createChordProgression_count_third_witness :
  parseKey "Gb major" = Some {| root := "Gb"; isMinor := true |} /\
  is_Some (NOTE_TO_MIDI !! "Gb") /\ (7 < 2 \/ 7 > 6) /\
  createChordProgression "Gb major" 7 = Err (InvalidChordCount 7).
Proof.
  assert (is_Some (NOTE_TO_MIDI !! "Gb")) as H by (exists 66; reflexivity).
  assert (7 < 2 \/ 7 > 6) as Hn by (right; lia).
  split; [reflexivity |]. split; [exact H |]. split; [exact Hn |].
  exact (createChordProgression_count_third "Gb major"
           {| root := "Gb"; isMinor := true |} 7 eq_refl H Hn).
Defined.

(** * Properties of the tool in index.js *)

(** X22.  The description of a progression spells the degrees the selector
    returns for the same count: one Roman numeral per degree, joined by
    dashes, upper case for the major and lower case for the minor chords of a
    Major key. *)
Theorem getProgressionDescription_numerals (n : Z) (degrees : list Z) :
  getProgressionDegrees n = Ok (Some degrees) ->
  Index.getProgressionDescription n = String.concat "-" (map numeral degrees).
Proof.
  unfold getProgressionDegrees. destruct (_ || _) eqn:Hg; [discriminate |].
  apply orb_false_iff in Hg as [Hlo Hhi].
  apply Z.ltb_ge in Hlo. rewrite Z.gtb_ltb in Hhi. apply Z.ltb_ge in Hhi.
  assert (n = 2 \/ n = 3 \/ n = 4 \/ n = 5 \/ n = 6) as Hc by lia.
  destruct Hc as [-> | [-> | [-> | [-> | ->]]]]; intros H; vm_compute in H;
    injection H as <-; by vm_compute.
Qed.

Lemma getProgressionDescription_numerals_witness :
  getProgressionDegrees 5 = Ok (Some [1; 6; 4; 5; 1]) /\
  Index.getProgressionDescription 5 = String.concat "-" (map numeral [1; 6; 4; 5; 1]).
Proof.
  split; [reflexivity |].
  apply (getProgressionDescription_numerals 5 [1; 6; 4; 5; 1]). reflexivity.
Defined.

(** In range the entry point throws neither the chord-count error nor a type
    error. *)
Lemma createChordProgression_in_range (key : string) (n : Z) (e : error) :
  2 <= n <= 6 -> createChordProgression key n = Err e ->
  (forall m, e <> InvalidChordCount m) /\ e <> TypeError.
Proof.
  intros Hn H. destruct (parseKey key) as [k |] eqn:Hk.
  2:{ unfold createChordProgression in H. rewrite Hk in H. by injection H as <-. }
  destruct (get NOTE_TO_MIDI (root k)) as [m | |] eqn:G.
  - apply get_NOTE_TO_MIDI_Own in G.
    pose proof (createChordProgression_table_root key k n Hk (ex_intro _ m G) Hn) as Hr.
    destruct (String.eqb (root k) "Gb" && negb (n =? 2)).
    + rewrite Hr in H. by injection H as <-.
    + destruct Hr as [evs Hr]. rewrite Hr in H. discriminate H.
  - rewrite (createChordProgression_inherited key k n Hk G Hn) in H. by injection H as <-.
  - unfold createChordProgression in H. rewrite Hk in H. cbv zeta in H.
    rewrite G in H. cbn [truthy negb] in H. by injection H as <-.
Qed.

Section Tool.

Variable base64OfTrack : list NoteEvent -> string.

(** X23.  The tool checks the chord count before it calls the engine: it
    answers with its own range error exactly when the count (4 when left out)
    is outside 2..6, whatever the key.  What the engine throws reaches the
    caller only for a count in range, and is then never the engine's own
    chord-count error. *)
Theorem handler_failure (key : string) (numChords : option Z) :
  (Index.handler base64OfTrack key numChords = Index.Failure Index.CountOutOfRange <->
   default 4 numChords < 2 \/ default 4 numChords > 6) /\
  (forall e, Index.handler base64OfTrack key numChords = Index.Failure (Index.Engine e) ->
             2 <= default 4 numChords <= 6 /\
             createChordProgression key (default 4 numChords) = Err e /\
             forall m, e <> InvalidChordCount m).
Proof.
  unfold Index.handler. cbv zeta.
  generalize (default 4 numChords). intros n.
  destruct (n <? 2) eqn:Hlo; [apply Z.ltb_lt in Hlo | apply Z.ltb_ge in Hlo];
    cbn [orb].
  { split; [split; [lia | done] | discriminate]. }
  destruct (n >? 6) eqn:Hhi; rewrite Z.gtb_ltb in Hhi;
    [apply Z.ltb_lt in Hhi | apply Z.ltb_ge in Hhi].
  { split; [split; [lia | done] | discriminate]. }
  destruct (createChordProgression key n) as [track | e'] eqn:Hrun.
  - split; [split; [discriminate | lia] | discriminate].
  - split; [split; [discriminate | lia] |].
    intros e [= <-]. split; [lia |]. split; [done |].
    by apply (createChordProgression_in_range key n e').
Qed.

(** X24.  The tool succeeds exactly when the count is in range and the engine
    returns a track; it then answers with the encoded track, echoes the key
    and the count, reports as many chords as the track holds, and names the
    file after the key. *)
Theorem handler_success (key : string) (numChords : option Z)
    (data text : string) (sc : Index.StructuredContent) :
  Index.handler base64OfTrack key numChords = Index.Success data text sc <->
  exists track,
    2 <= default 4 numChords <= 6 /\
    createChordProgression key (default 4 numChords) = Ok track /\
    Z.of_nat (length track) = default 4 numChords /\
    data = base64OfTrack track /\
    text = "Generated MIDI file with " +:+ JS.ofInt (default 4 numChords) +:+
           " chord progression (" +:+
           Index.getProgressionDescription (default 4 numChords) +:+ ") in " +:+
           key +:+ ". File: " +:+ (Index.keyName key +:+ "_chords.mid") /\
    sc = {| Index.filename := Index.keyName key +:+ "_chords.mid";
            Index.key := key;
            Index.numChords := default 4 numChords;
            Index.progression := Index.getProgressionDescription (default 4 numChords) |}.
Proof.
  unfold Index.handler. cbv zeta.
  generalize (default 4 numChords). intros n.
  destruct (n <? 2) eqn:Hlo; [apply Z.ltb_lt in Hlo | apply Z.ltb_ge in Hlo];
    cbn [orb].
  { split; [discriminate | intros (track & ? & _); lia]. }
  destruct (n >? 6) eqn:Hhi; rewrite Z.gtb_ltb in Hhi;
    [apply Z.ltb_lt in Hhi | apply Z.ltb_ge in Hhi].
  { split; [discriminate | intros (track & ? & _); lia]. }
  destruct (createChordProgression key n) as [track | e] eqn:Hrun.
  - split.
    + intros [= <- <- <-]. exists track. split; [lia |]. split; [done |].
      split; [| done].
      apply createChordProgression_Ok in Hrun as (k & degrees & _ & _ & Hd & H).
      apply getProgressionDegrees_length in Hd. apply Forall2_length in H. lia.
    + intros (track' & _ & [= <-] & _ & -> & -> & ->). done.
  - split; [discriminate | intros (track & _ & ? & _); discriminate].
Qed.

(** X26.  Adding the chord count to the tool changed nothing for a caller who
    leaves it out: the older tool and the newer one fail on the same keys
    with the same engine error, and succeed on the same keys with the same
    data, file name, key and progression. *)
Theorem handler_backward_compatible (key : string) :
  match IndexV1.handler base64OfTrack key, Index.handler base64OfTrack key None with
  | IndexV1.Success data _ sc, Index.Success data' _ sc' =>
      data = data' /\ IndexV1.filename sc = Index.filename sc' /\
      IndexV1.key sc = Index.key sc' /\
      IndexV1.progression sc = Index.progression sc' /\ Index.numChords sc' = 4
  | IndexV1.Failure e, Index.Failure cause => cause = Index.Engine e
  | _, _ => False
  end.
Proof.
  unfold IndexV1.handler, Index.handler. cbv zeta.
  change (default 4 None) with 4. change ((4 <? 2) || (4 >? 6)) with false. cbv iota.
  destruct (createChordProgression key 4); [| done].
  cbn [IndexV1.filename IndexV1.key IndexV1.progression Index.filename Index.key
       Index.progression Index.numChords].
  split; [done |]. split; [done |]. split; [done |]. split; [| done]. by vm_compute.
Qed.

End Tool.

Lemma isNameChar_not_space (c : ascii) :
  Index.isNameChar c = true -> JS.isSpace c = false.
Proof. each_ascii c; by vm_compute. Qed.

Lemma keepNameChars_all (s : string) :
  allChars Index.isNameChar (Index.keepNameChars s) = true.
Proof.
  induction s as [| c t IH]; [done |]. cbn [Index.keepNameChars].
  destruct (Index.isNameChar c) eqn:E; [| done]. cbn [allChars]. by rewrite E, IH.
Qed.

Lemma keepNameChars_fixed (s : string) :
  allChars Index.isNameChar s = true -> Index.keepNameChars s = s.
Proof.
  induction s as [| c t IH]; [done |]. cbn [allChars Index.keepNameChars].
  intros H. apply andb_true_iff in H as [-> H]. by rewrite IH.
Qed.

Lemma underscoreSpaces_fixed (s : string) (inRun : bool) :
  allChars Index.isNameChar s = true -> Index.underscoreSpaces inRun s = s.
Proof.
  revert inRun. induction s as [| c t IH]; intros inRun; [done |].
  cbn [allChars Index.underscoreSpaces]. intros H.
  apply andb_true_iff in H as [Hc H].
  by rewrite (isNameChar_not_space c Hc), IH.
Qed.

(** X25.  The name the tool derives from the key for the file holds letters,
    digits, underscores and sharps only (no dot, slash or white space), and
    deriving it again from itself changes nothing. *)
Theorem keyName_safe (key : string) :
  allChars Index.isNameChar (Index.keyName key) = true /\
  Index.keyName (Index.keyName key) = Index.keyName key.
Proof.
  assert (allChars Index.isNameChar (Index.keyName key) = true) as H
    by apply keepNameChars_all.
  split; [exact H |]. unfold Index.keyName at 1.
  by rewrite (underscoreSpaces_fixed _ false H), (keepNameChars_fixed _ H).
Qed.

(** The documented keys give the expected names. *)
Example keyName_examples :
  Index.keyName "F# major" = "F#_major" /\ Index.keyName "Bb  minor" = "Bb_minor" /\
  Index.keyName " ../a.b/c " = "_abc_".
Proof. by vm_compute. Qed.
